(** * wsk-router: the route reconciliation actions of [router.js]

    A shallow embedding of [src/wsk/package/router/router.js]: the three
    OpenWhisk actions [list], [map] and [unmap] that reconcile the routes of
    a Cloud Foundry application.

    - JavaScript values are a small inductive type [jsval]; a request
      ("args") is a record of such values.
    - A JavaScript [Set] of strings is a duplicate-free list in insertion
      order (iteration order of a [Set] is insertion order).
    - A promise is a state-and-error computation over the remote platform:
      the state carries the remote world and the trace of client calls.
    - The remote client (cf-nodejs-client) is a record of operations on an
      abstract world; it is the only part that is not in the source.
    - Console output is not modelled. *)

From Stdlib Require Import List String Ascii Bool Arith ZArith Lia.
Import ListNotations.
Local Open Scope string_scope.
Local Open Scope list_scope.
Local Open Scope bool_scope.
Set Warnings "-register-all".

(* ================================================================= *)
(** ** JavaScript values *)

Inductive jsval : Type :=
| JUndefined
| JNull
| JBool (b : bool)
| JNum (n : Z)
| JStr (s : string)
| JArr (elems : list jsval)
| JObj (fields : list (string * jsval)).

(** [!!v]. Numbers are integers here, so the only falsy number is 0. *)
Definition truthy (v : jsval) : bool :=
  match v with
  | JUndefined | JNull => false
  | JBool b => b
  | JNum n => negb (n =? 0)%Z
  | JStr s => negb (s =? EmptyString)
  | JArr _ | JObj _ => true
  end.

Inductive jstype := TUndefined | TObject | TBoolean | TNumber | TString.

Definition typeof (v : jsval) : jstype :=
  match v with
  | JUndefined => TUndefined
  | JNull | JArr _ | JObj _ => TObject
  | JBool _ => TBoolean
  | JNum _ => TNumber
  | JStr _ => TString
  end.

Definition is_string (v : jsval) : bool :=
  match v with JStr _ => true | _ => false end.

Definition is_object (v : jsval) : bool :=
  match typeof v with TObject => true | _ => false end.

Definition Array_isArray (v : jsval) : bool :=
  match v with JArr _ => true | _ => false end.

(** [a || b] on values. *)
Definition js_or (a b : jsval) : jsval := if truthy a then a else b.

(** [v === true]. *)
Definition strict_eq_true (v : jsval) : bool :=
  match v with JBool true => true | _ => false end.

(** The elements of an array value (used only under [Array_isArray]). *)
Definition elements (v : jsval) : list jsval :=
  match v with JArr l => l | _ => [] end.

(** [arr.push(x)]. *)
Definition Array_push (arr x : jsval) : jsval :=
  match arr with JArr l => JArr (l ++ [x]) | _ => arr end.

Fixpoint assoc (k : string) (fs : list (string * jsval)) : jsval :=
  match fs with
  | [] => JUndefined
  | (k', v) :: rest => if k =? k' then v else assoc k rest
  end.

(** Property read [v.k]: [None] is the TypeError raised on undefined and
    null; primitives and arrays have no such own property. *)
Definition prop (v : jsval) (k : string) : option jsval :=
  match v with
  | JUndefined | JNull => None
  | JObj fs => Some (assoc k fs)
  | _ => Some JUndefined
  end.

(* ================================================================= *)
(** ** Strings *)

(** White space removed by [String.prototype.trim], within ASCII. *)
Definition is_space (c : ascii) : bool :=
  let n := nat_of_ascii c in
  (((9 <=? n) && (n <=? 13)) || (n =? 32))%nat.

Fixpoint drop_space (l : list ascii) : list ascii :=
  match l with
  | [] => []
  | c :: rest => if is_space c then drop_space rest else l
  end.

Definition trim (s : string) : string :=
  string_of_list_ascii
    (rev (drop_space (rev (drop_space (list_ascii_of_string s))))).

(** One character of the class [[0-9a-zA-Z]]. *)
Definition alnum (c : ascii) : bool :=
  let n := nat_of_ascii c in
  (((48 <=? n) && (n <=? 57)) || ((65 <=? n) && (n <=? 90))
   || ((97 <=? n) && (n <=? 122)))%nat.

(** [str.match(/^[0-9a-zA-Z]+$/) != null]. *)
Definition matches_alnum_plus (s : string) : bool :=
  match list_ascii_of_string s with
  | [] => false
  | l => forallb alnum l
  end.

(* ================================================================= *)
(** ** Sets of strings *)

Module StrSet.

(** A [Set] of strings: its elements in insertion order. *)
Definition t := list string.

Definition has (s : t) (x : string) : bool := existsb (String.eqb x) s.

Definition add (s : t) (x : string) : t := if has s x then s else s ++ [x].

(** [new Set(iterable)]. *)
Definition of_list (l : list string) : t := fold_left add l [].

(** [s.delete(x)]. *)
Definition delete (s : t) (x : string) : t :=
  filter (fun y => negb (String.eqb x y)) s.

(** [Array.from(s)]. *)
Definition to_list (s : t) : list string := s.

(** [s.length]: a [Set] has [size] but no [length] property, so the read
    yields undefined. *)
Definition length_property (s : t) : jsval := JUndefined.

End StrSet.

(** [v != n] for a number [n] (abstract inequality).  Strings are compared
    through their numeric value when they are empty or blank (0); other
    strings, arrays and objects are taken as different from [n]. *)
Definition loose_neq_number (v : jsval) (n : Z) : bool :=
  match v with
  | JUndefined | JNull => true
  | JBool b => negb ((if b then 1 else 0) =? n)%Z
  | JNum m => negb (m =? n)%Z
  | JStr s => if trim s =? EmptyString then negb (0 =? n)%Z else true
  | JArr _ | JObj _ => true
  end.

(* ================================================================= *)
(** ** Promises over the remote platform *)

(** What a promise is rejected with. *)
Inductive reason : Type :=
| Text (s : string)
    (** a string that is not JSON text *)
| JsonError (error_code : option string) (description : string)
    (** a string holding the JSON text of an error object *)
| TypeError (what : string)
    (** an exception thrown by the action's own code *).

Inductive outcome (A : Type) : Type :=
| Resolved (a : A)
| Rejected (e : reason).
Arguments Resolved {A} a.
Arguments Rejected {A} e.

Definition is_resolved {A} (o : outcome A) : bool :=
  match o with Resolved _ => true | Rejected _ => false end.

(** [JSON.parse(error)] followed by the read of [error_code]: [None] when
    the parse throws. *)
Definition JSON_parse_error_code (e : reason) : option (option string) :=
  match e with
  | JsonError c _ => Some c
  | Text _ | TypeError _ => None
  end.

(** The double-quote character, as the messages of the source use it. *)
Definition dq : string := String (ascii_of_nat 34) EmptyString.

(** [name] between double quotes. *)
Definition quoted (name : string) : string := (dq ++ name ++ dq)%string.

(* ================================================================= *)
(** ** Requests *)

Record Args : Type := mkArgs {
  endpoint : jsval;
  token : jsval;
  appname : jsval;
  org : jsval;
  space : jsval;
  routes : jsval;
  deleteAfterUnmap : jsval
}.

Definition set_routes (a : Args) (r : jsval) : Args :=
  mkArgs (endpoint a) (token a) (appname a) (org a) (space a) r
         (deleteAfterUnmap a).

(** [!v || typeof v !== 'string' || !v.trim()]. *)
Definition blank_or_not_string (v : jsval) : bool :=
  match v with
  | JStr s => (s =? EmptyString) || (trim s =? EmptyString)
  | _ => true
  end.

(* ================================================================= *)
(** ** Input validation *)

(** A validator runs on the caller's request record and may assign to it:
    it returns the record as it is afterwards. *)
Definition Validator (A : Type) : Type := Args -> Args * outcome A.

Definition validateArgsBasic : Validator unit := fun args =>
  if blank_or_not_string (endpoint args) then
    (args, Rejected (Text (quoted "endpoint" ++ " not defined, must be string.")%string))
  else if negb (truthy (token args)) || negb (is_object (token args)) then
    (args, Rejected (Text (quoted "token" ++
      " not defined, must be object containing access/refresh token.")%string))
  else if blank_or_not_string (appname args) then
    (args, Rejected (Text (quoted "appname" ++ " not defined, must be string.")%string))
  else (args, Resolved tt).

(** [validRouteSegment]: a string made of one or more of [[0-9a-zA-Z]]. *)
Definition validRouteSegment (v : jsval) : bool :=
  match v with
  | JStr s => matches_alnum_plus s
  | _ => false
  end.

(** The callback of the first [filter] of the map validator,
    [r => validRouteSegment(r.org) && validRouteSegment(r.space)];
    reading a property of undefined or null throws. *)
Definition valid_route_entry (r : jsval) : outcome bool :=
  match prop r "org" with
  | None => Rejected (TypeError "Cannot read property 'org'")
  | Some o =>
      if validRouteSegment o then
        match prop r "space" with
        | None => Rejected (TypeError "Cannot read property 'space'")
        | Some s => Resolved (validRouteSegment s)
        end
      else Resolved false
  end.

(** [arr.filter(f)] for a callback that may throw: the first exception
    ends the traversal. *)
Fixpoint Array_filter {A} (f : A -> outcome bool) (l : list A)
  : outcome (list A) :=
  match l with
  | [] => Resolved []
  | x :: rest =>
      match f x with
      | Rejected e => Rejected e
      | Resolved b =>
          match Array_filter f rest with
          | Rejected e => Rejected e
          | Resolved keep => Resolved (if b then x :: keep else keep)
          end
      end
  end.

(** [arr.map(f)] for a callback that may throw. *)
Fixpoint Array_map {A B} (f : A -> outcome B) (l : list A)
  : outcome (list B) :=
  match l with
  | [] => Resolved []
  | x :: rest =>
      match f x with
      | Rejected e => Rejected e
      | Resolved y =>
          match Array_map f rest with
          | Rejected e => Rejected e
          | Resolved ys => Resolved (y :: ys)
          end
      end
  end.

(** The string held by a string value.  It is applied where the checks
    before have established that the value is a string: the fields of an
    entry that passed [valid_route_entry], and [appname] once
    [validateArgsBasic] has passed. *)
Definition str_of (v : jsval) : string :=
  match v with JStr s => s | _ => EmptyString end.

(** [({org, space}) => org+'-'+space]. *)
Definition org_dash_space (r : jsval) : string :=
  match r with
  | JObj fs => (str_of (assoc "org" fs) ++ "-" ++ str_of (assoc "space" fs))%string
  | _ => EmptyString
  end.

Definition msg_org_space_both : string :=
  (quoted "org" ++ " and " ++ quoted "space"
   ++ " must both be defined if either is defined.")%string.

Definition msg_routes_not_array_map : string :=
  (quoted "routes"
   ++ " not defined, must be array containing org and space names as strings.")%string.

Definition msg_no_valid_routes_to_map : string :=
  (quoted "routes" ++ " does not contain any valid route names to map (org/space must be in [0-9a-zA-Z] and no more than 62 chracter total).")%string.

Definition msg_org_space_or_routes : string :=
  ("either " ++ quoted "org" ++ " & " ++ quoted "space"
   ++ " must be defined or " ++ quoted "routes"
   ++ " must be defined to map routes.")%string.

Definition msg_routes_not_array_unmap : string :=
  (quoted "routes"
   ++ " not defined, must be array containing route names as strings.")%string.

Definition msg_no_routes_to_unmap : string :=
  (quoted "routes" ++ " does not contain any route names to unmap.")%string.

(** The candidate host names of a [routes] array: entries with a valid org
    and space, joined by a dash, at most 63 characters long. *)
Definition candidate_names (rs : list jsval) : outcome (list string) :=
  match Array_filter valid_route_entry rs with
  | Rejected e => Rejected e
  | Resolved kept =>
      Resolved (filter (fun r => String.length r <=? 63)%nat
                       (map org_dash_space kept))
  end.

Definition validateArgsForMapRoutes : Validator StrSet.t := fun args =>
  match validateArgsBasic args with
  | (args, Rejected e) => (args, Rejected e)
  | (args, Resolved _) =>
      if (truthy (org args) && negb (truthy (space args)))
         || (truthy (space args) && negb (truthy (org args)))
      then (args, Rejected (Text msg_org_space_both))
      else if (truthy (org args) && truthy (space args)) || truthy (routes args)
      then
        if truthy (routes args) && negb (Array_isArray (routes args))
        then (args, Rejected (Text msg_routes_not_array_map))
        else
          let args :=
            if truthy (org args) && truthy (space args) then
              let args := set_routes args (js_or (routes args) (JArr [])) in
              set_routes args
                (Array_push (routes args)
                   (JObj [("org", org args); ("space", space args)]))
            else args in
          match candidate_names (elements (routes args)) with
          | Rejected e => (args, Rejected e)
          | Resolved names =>
              let requestedRouteAdditions := StrSet.of_list names in
              if loose_neq_number
                   (StrSet.length_property requestedRouteAdditions) 0
              then (args, Resolved requestedRouteAdditions)
              else (args, Rejected (Text msg_no_valid_routes_to_map))
          end
      else (args, Rejected (Text msg_org_space_or_routes))
  end.

(** The callback [r => r.trim()] of the unmap validator; it throws on
    anything but a string. *)
Definition trim_entry (r : jsval) : outcome string :=
  match r with
  | JStr s => Resolved (trim s)
  | _ => Rejected (TypeError "r.trim is not a function")
  end.

Definition validateArgsForUnmapRoutes : Validator StrSet.t := fun args =>
  match validateArgsBasic args with
  | (args, Rejected e) => (args, Rejected e)
  | (args, Resolved _) =>
      if negb (truthy (routes args)) || negb (Array_isArray (routes args))
      then (args, Rejected (Text msg_routes_not_array_unmap))
      else
        match Array_map trim_entry (elements (routes args)) with
        | Rejected e => (args, Rejected e)
        | Resolved trimmed =>
            let requestedRouteDeletions :=
              StrSet.of_list
                (filter (fun r => negb (r =? EmptyString)) trimmed) in
            if loose_neq_number
                 (StrSet.length_property requestedRouteDeletions) 0
            then (args, Resolved requestedRouteDeletions)
            else (args, Rejected (Text msg_no_routes_to_unmap))
        end
  end.

(* ================================================================= *)
(** ** Remote records and the remote client *)

(** A route resource: [metadata.guid] and the fields of [entity]. *)
Record Route : Type := mkRoute {
  route_guid : string;
  host : string;
  entity_domain_guid : string;
  entity_space_guid : string
}.

(** An application resource: [metadata.guid]. *)
Record App : Type := mkApp { metadata_guid : string }.

(** One entry of the result of [map] and [unmap]. *)
Record Status : Type := mkStatus { route : string; ok : bool }.

(** The requests the action sends to the platform. *)
Inductive call : Type :=
| GetApps (q : string)
| GetAppRoutes (app_guid : string)
| RoutesAdd (domain_guid space_guid : option string) (host : string)
| RoutesGetRoutes (q : string)
| AssociateRoute (app_guid route_guid : string)
| DeleteAppRoute (app_guid route_guid : string)
| RoutesRemove (route_guid : string).

(** The state a promise runs in: the remote world and the requests sent so
    far, oldest first. *)
Record St (W : Type) : Type := mkSt { world : W; trace : list call }.
Arguments mkSt {W} world trace.
Arguments world {W} s.
Arguments trace {W} s.

Definition Promise (W A : Type) : Type := St W -> St W * outcome A.

Definition resolve {W A} (a : A) : Promise W A := fun s => (s, Resolved a).

Definition reject {W A} (e : reason) : Promise W A := fun s => (s, Rejected e).

(** [p.then(f)]. *)
Definition then_ {W A B} (p : Promise W A) (f : A -> Promise W B)
  : Promise W B :=
  fun s => match p s with
           | (s', Resolved a) => f a s'
           | (s', Rejected e) => (s', Rejected e)
           end.

(** [p.catch(h)]. *)
Definition catch_ {W A} (p : Promise W A) (h : reason -> Promise W A)
  : Promise W A :=
  fun s => match p s with
           | (s', Resolved a) => (s', Resolved a)
           | (s', Rejected e) => h e s'
           end.

(** The operations of cf-nodejs-client the action uses, as transitions of
    the remote world.  [REST_delete] is the DELETE request on
    [/v2/apps/:app_guid/routes/:route_guid] expecting status 204. *)
Record Client (W : Type) : Type := mkClient {
  cc_getApps : string -> W -> W * outcome (list App);
  cc_getAppRoutes : string -> W -> W * outcome (list Route);
  cc_routesAdd :
    option string -> option string -> string -> W -> W * outcome Route;
  cc_getRoutes : string -> W -> W * outcome (list Route);
  cc_associateRoute : string -> string -> W -> W * outcome unit;
  cc_REST_delete : string -> string -> W -> W * outcome unit;
  cc_routesRemove : string -> W -> W * outcome unit
}.
Arguments cc_getApps {W} c.
Arguments cc_getAppRoutes {W} c.
Arguments cc_routesAdd {W} c.
Arguments cc_getRoutes {W} c.
Arguments cc_associateRoute {W} c.
Arguments cc_REST_delete {W} c.
Arguments cc_routesRemove {W} c.

(** Sending a request: it is appended to the trace and the world moves. *)
Definition send {W A} (c : call) (op : W -> W * outcome A) : Promise W A :=
  fun s => let (w, r) := op (world s) in (mkSt w (trace s ++ [c]), r).

(** The output of the Route Differ. *)
Record Ids : Type := mkIds {
  domain_guid : option string;
  space_guid : option string;
  routesToAdd : StrSet.t;
  routesToDelete : list Route
}.

(** The body of the [filter] callback of [filterAddDeleteAndGetIds]: it
    assigns the identifiers, deletes from [routesToAdd] and keeps the
    record when its deletion was requested. *)
Definition differ_step (appname : string)
    (requestedRouteAdditions requestedRouteDeletions : StrSet.t)
    (acc : Ids) (r : Route) : Ids :=
  let acc :=
    if host r =? appname
    then mkIds (Some (entity_domain_guid r)) (Some (entity_space_guid r))
               (routesToAdd acc) (routesToDelete acc)
    else acc in
  let acc :=
    if StrSet.has requestedRouteAdditions (host r)
    then mkIds (domain_guid acc) (space_guid acc)
               (StrSet.delete (routesToAdd acc) (host r)) (routesToDelete acc)
    else acc in
  if StrSet.has requestedRouteDeletions (host r)
  then mkIds (domain_guid acc) (space_guid acc) (routesToAdd acc)
             (routesToDelete acc ++ [r])
  else acc.

Definition filterAddDeleteAndGetIds (routes : list Route) (appname : string)
    (requestedRouteAdditions requestedRouteDeletions : StrSet.t) : Ids :=
  fold_left (differ_step appname requestedRouteAdditions requestedRouteDeletions)
            routes
            (mkIds None None requestedRouteAdditions []).

Section Actions.

Context {W : Type} (C : Client W).

Definition Apps_getApps (q : string) : Promise W (list App) :=
  send (GetApps q) (cc_getApps C q).

Definition Apps_getAppRoutes (app_guid : string) : Promise W (list Route) :=
  send (GetAppRoutes app_guid) (cc_getAppRoutes C app_guid).

Definition Routes_add (d s : option string) (h : string) : Promise W Route :=
  send (RoutesAdd d s h) (cc_routesAdd C d s h).

Definition Routes_getRoutes (q : string) : Promise W (list Route) :=
  send (RoutesGetRoutes q) (cc_getRoutes C q).

Definition Apps_associateRoute (app_guid rt : string) : Promise W unit :=
  send (AssociateRoute app_guid rt) (cc_associateRoute C app_guid rt).

Definition Routes_remove (rt : string) : Promise W unit :=
  send (RoutesRemove rt) (cc_routesRemove C rt).

(** [enhanceApps]: the request resolving with an empty body counts as
    success. *)
Definition Apps_unassociateRoute (app_guid rt : string) : Promise W unit :=
  catch_ (send (DeleteAppRoute app_guid rt) (cc_REST_delete C app_guid rt))
         (fun error =>
            match error with
            | Text body =>
                if body =? "EMPTY_BODY" then resolve tt else reject error
            | _ => reject error
            end).

Definition getAppRoutes (appname : string)
  : Promise W (list Route * string) :=
  then_
    (then_ (Apps_getApps ("name:" ++ appname)%string)
       (fun resources =>
          match resources with
          | [app] => resolve app
          | _ => reject (Text ("App " ++ appname ++ " not found.")%string)
          end))
    (fun app =>
       then_ (Apps_getAppRoutes (metadata_guid app))
             (fun routes => resolve (routes, metadata_guid app))).

(** The recovery of [addRoutes]: on the host-taken code the existing
    route is looked up, and the first resource found (if any) is the
    route to associate. *)
Definition recover (nextToAdd : string) (error : reason)
  : Promise W (option Route) :=
  match JSON_parse_error_code error with
  | Some (Some error_code) =>
      if error_code =? "CF-RouteHostTaken" then
        then_ (Routes_getRoutes ("host:" ++ nextToAdd)%string)
              (fun resources => resolve (nth_error resources 0))
      else reject error
  | Some None => reject error
  | None => reject error
  end.

(** The requests [addRoutes] chains for one host name: create, recover
    from a conflict, associate. *)
Definition createAndAssociate (app_guid : string) (d s : option string)
    (nextToAdd : string) : Promise W unit :=
  then_
    (catch_ (then_ (Routes_add d s nextToAdd) (fun r => resolve (Some r)))
            (recover nextToAdd))
    (fun created =>
       match created with
       | Some r => Apps_associateRoute app_guid (route_guid r)
       | None => reject (TypeError "Cannot read property 'metadata'")
       end).

(** The whole chain for one host name, ending with the entry it pushes. *)
Definition addRoute (app_guid : string) (d s : option string)
    (nextToAdd : string) : Promise W Status :=
  catch_
    (then_ (createAndAssociate app_guid d s nextToAdd)
           (fun _ => resolve (mkStatus nextToAdd true)))
    (fun error => resolve (mkStatus nextToAdd false)).

Definition addRoutes (routes : StrSet.t) (app_guid : string)
    (d s : option string) : Promise W (list Status) :=
  fold_left
    (fun addedSoFar nextToAdd =>
       then_ addedSoFar
             (fun list =>
                then_ (addRoute app_guid d s nextToAdd)
                      (fun entry => resolve (list ++ [entry]))))
    (StrSet.to_list routes)
    (resolve []).

(** [rmRoute]: the request [deleteRoutes] sends for one route record. *)
Definition rmRoute (app_guid : string) (deleteAfterUnmap : jsval)
    (nextToDelete : Route) : Promise W unit :=
  if strict_eq_true deleteAfterUnmap
  then Routes_remove (route_guid nextToDelete)
  else Apps_unassociateRoute app_guid (route_guid nextToDelete).

(** The chain [deleteRoutes] runs for one route record. *)
Definition deleteRoute (app_guid : string) (deleteAfterUnmap : jsval)
    (nextToDelete : Route) : Promise W Status :=
  catch_
    (then_ (rmRoute app_guid deleteAfterUnmap nextToDelete)
           (fun _ => resolve (mkStatus (host nextToDelete) true)))
    (fun error => resolve (mkStatus (host nextToDelete) false)).

Definition deleteRoutes (routes : list Route) (app_guid : string)
    (deleteAfterUnmap : jsval) : Promise W (list Status) :=
  fold_left
    (fun deletedSoFar nextToDelete =>
       then_ deletedSoFar
             (fun list =>
                then_ (deleteRoute app_guid deleteAfterUnmap nextToDelete)
                      (fun entry => resolve (list ++ [entry]))))
    routes
    (resolve []).

(** The final [then] of [mapRoutes] and [unmapRoutes]: every reported
    route is deleted from the requested set, and what is left of the set
    is pushed with the default [leftover_ok]. *)
Definition report (leftover_ok : bool) (requested : StrSet.t)
    (result : list Status) : list Status :=
  let remaining :=
    fold_left (fun set r => StrSet.delete set (route r)) result requested in
  fold_left (fun result r => result ++ [mkStatus r leftover_ok])
            (StrSet.to_list remaining) result.

(** An action on a request: the request record afterwards, the final
    state and the outcome. *)
Definition Action (A : Type) : Type :=
  Args -> St W -> Args * (St W * outcome A).

(** [list]. *)
Definition listRoutes : Action (list string) := fun args s =>
  match validateArgsBasic args with
  | (args, Rejected e) => (args, (s, Rejected e))
  | (args, Resolved _) =>
      (args,
       then_ (getAppRoutes (str_of (appname args)))
             (fun '(routes, app_guid) => resolve (map host routes)) s)
  end.

(** [map]. *)
Definition mapRoutes : Action (list Status) := fun args s =>
  match validateArgsForMapRoutes args with
  | (args, Rejected e) => (args, (s, Rejected e))
  | (args, Resolved requestedRouteAdditions) =>
      (args,
       catch_
         (then_
            (then_ (getAppRoutes (str_of (appname args)))
               (fun '(routes, app_guid) =>
                  let ids :=
                    filterAddDeleteAndGetIds routes (str_of (appname args))
                      requestedRouteAdditions [] in
                  addRoutes (routesToAdd ids) app_guid
                            (domain_guid ids) (space_guid ids)))
            (fun result =>
               resolve (report true requestedRouteAdditions result)))
         (fun error => reject error) s)
  end.

(** [unmap]. *)
Definition unmapRoutes : Action (list Status) := fun args s =>
  match validateArgsForUnmapRoutes args with
  | (args, Rejected e) => (args, (s, Rejected e))
  | (args, Resolved requestedRouteDeletions) =>
      (args,
       catch_
         (then_
            (then_ (getAppRoutes (str_of (appname args)))
               (fun '(routes, app_guid) =>
                  let ids :=
                    filterAddDeleteAndGetIds routes (str_of (appname args))
                      [] requestedRouteDeletions in
                  deleteRoutes (routesToDelete ids) app_guid
                               (deleteAfterUnmap args)))
            (fun result =>
               resolve (report false requestedRouteDeletions result)))
         (fun error => reject error) s)
  end.

End Actions.

(* ================================================================= *)
(** ** A small platform to run the actions on *)

Module Mock.

(** The platform: every route it knows, the guids of the routes bound to
    the one application it hosts, and the route guids whose bindings it
    refuses to change. *)
Record CF : Type := mkCF {
  cf_routes : list Route;
  cf_bound : list string;
  cf_frozen : list string
}.

Definition mem (x : string) (l : list string) : bool :=
  existsb (String.eqb x) l.

Definition getApps (q : string) (w : CF) : CF * outcome (list App) :=
  if q =? "name:myapp" then (w, Resolved [mkApp "app-1"])
  else if q =? "name:twins" then (w, Resolved [mkApp "app-2"; mkApp "app-3"])
  else (w, Resolved []).

Definition getAppRoutes (app_guid : string) (w : CF)
  : CF * outcome (list Route) :=
  (w, Resolved (filter (fun r => mem (route_guid r) (cf_bound w))
                       (cf_routes w))).

Definition routesAdd (d s : option string) (h : string) (w : CF)
  : CF * outcome Route :=
  if mem h (map host (cf_routes w)) then
    (w, Rejected (JsonError (Some "CF-RouteHostTaken") "host is taken"))
  else
    match d, s with
    | Some d, Some s =>
        let r := mkRoute ("route-" ++ h)%string h d s in
        (mkCF (cf_routes w ++ [r]) (cf_bound w) (cf_frozen w), Resolved r)
    | _, _ =>
        (w, Rejected (JsonError (Some "CF-RouteInvalid") "no domain"))
    end.

Definition getRoutes (q : string) (w : CF) : CF * outcome (list Route) :=
  (w, Resolved (filter (fun r => ("host:" ++ host r)%string =? q)
                       (cf_routes w))).

Definition associateRoute (app_guid rt : string) (w : CF)
  : CF * outcome unit :=
  if mem rt (cf_frozen w) then (w, Rejected (Text "503"))
  else (mkCF (cf_routes w) (cf_bound w ++ [rt]) (cf_frozen w), Resolved tt).

(** A successful DELETE answers 204 with an empty body, which the REST
    layer reports as a rejection with EMPTY_BODY. *)
Definition REST_delete (app_guid rt : string) (w : CF)
  : CF * outcome unit :=
  if mem rt (cf_frozen w) then (w, Rejected (Text "503"))
  else (mkCF (cf_routes w)
             (filter (fun g => negb (g =? rt)) (cf_bound w))
             (cf_frozen w),
        Rejected (Text "EMPTY_BODY")).

Definition routesRemove (rt : string) (w : CF) : CF * outcome unit :=
  if mem rt (cf_frozen w) then (w, Rejected (Text "503"))
  else (mkCF (filter (fun r => negb (route_guid r =? rt)) (cf_routes w))
             (filter (fun g => negb (g =? rt)) (cf_bound w))
             (cf_frozen w),
        Resolved tt).

Definition client : Client CF :=
  mkClient CF getApps getAppRoutes routesAdd getRoutes associateRoute
           REST_delete routesRemove.

Definition r_myapp : Route := mkRoute "g0" "myapp" "D" "S".
Definition r_prod : Route := mkRoute "g1" "myapp-prod" "D" "S".
(** The same host on a second domain. *)
Definition r_prod2 : Route := mkRoute "g2" "myapp-prod" "D2" "S".
(** A route of the platform that is not bound to the application. *)
Definition r_taken : Route := mkRoute "g3" "acme-dev" "D" "S".

Definition world0 : CF :=
  mkCF [r_myapp; r_prod; r_taken] ["g0"; "g1"] [].

Definition world_two_domains : CF :=
  mkCF [r_myapp; r_prod; r_prod2] ["g0"; "g1"; "g2"] [].

Definition world_frozen : CF :=
  mkCF [r_myapp; r_prod; r_taken] ["g0"; "g1"] ["g3"; "g1"].

Definition start (w : CF) : St CF := mkSt w [].

Definition base (appname : string) : Args :=
  mkArgs (JStr "https://api.ng.bluemix.net")
         (JObj [("token_type", JStr "bearer"); ("access_token", JStr "t")])
         (JStr appname) JUndefined JUndefined JUndefined JUndefined.

Definition pair (o s : string) : jsval :=
  JObj [("org", JStr o); ("space", JStr s)].

Definition map_args (rs : list jsval) : Args :=
  set_routes (base "myapp") (JArr rs).

Definition map_org_space (o s : string) : Args :=
  mkArgs (endpoint (base "myapp")) (token (base "myapp"))
         (appname (base "myapp")) (JStr o) (JStr s) JUndefined JUndefined.

Definition unmap_args (rs : list string) (flag : jsval) : Args :=
  mkArgs (endpoint (base "myapp")) (token (base "myapp"))
         (appname (base "myapp")) JUndefined JUndefined
         (JArr (map JStr rs)) flag.

End Mock.

(* ================================================================= *)
(** ** Scenarios on the small platform *)

Module Scenario.

Import Mock.

(** The state once the application and its routes have been listed. *)
Definition listed (w : CF) : St CF :=
  mkSt w [GetApps "name:myapp"; GetAppRoutes "app-1"].

Definition map_two : Args :=
  map_args [pair "myapp" "stage"; pair "myapp" "prod"].

Definition unmap_two : Args := unmap_args ["myapp-prod"; "nope"] JUndefined.

Definition unmap_prod : Args := unmap_args ["myapp-prod"] JUndefined.

Definition map_taken : Args := map_args [pair "acme" "dev"].

(** A request for an application the platform does not know, well
    formed for each of the three actions. *)
Definition ghost : Args :=
  mkArgs (endpoint (base "ghost")) (token (base "ghost")) (JStr "ghost")
         (JStr "acme") (JStr "dev") (JArr [JStr "myapp-prod"]) JUndefined.

End Scenario.

(* ================================================================= *)
(** ** Notions the properties are stated with *)

(** The requests sent between two states: [sent s s' cs] when the trace of
    [s'] is the trace of [s] followed by [cs]. *)
Definition sent {W : Type} (s s' : St W) (cs : list call) : Prop :=
  trace s' = trace s ++ cs.

Definition is_remove (c : call) : bool :=
  match c with RoutesRemove _ => true | _ => false end.

Definition is_unassociate (c : call) : bool :=
  match c with DeleteAppRoute _ _ => true | _ => false end.

(** The status list has one entry per requested host name: none twice,
    none missing, none that was not requested. *)
Definition covers_exactly_once (requested : StrSet.t) (status : list Status)
  : Prop :=
  NoDup (map route status)
  /\ forall h, In h requested <-> In h (map route status).

(** The leftovers are the requested names no entry of the executor's
    result carries. *)
Definition leftovers (requested : StrSet.t) (result : list Status)
  : list string :=
  filter (fun h => negb (StrSet.has (map route result) h)) requested.

(** The pair the map validator pushes. *)
Definition pushed (args : Args) : jsval :=
  JObj [("org", org args); ("space", space args)].

(** The map validator assigns to [routes] exactly when the basic checks
    pass, [org] and [space] are both given, and [routes] is unset or an
    array. *)
Definition appends_pair (args : Args) : bool :=
  is_resolved (snd (validateArgsBasic args))
  && (truthy (org args) && truthy (space args))
  && (negb (truthy (routes args)) || Array_isArray (routes args)).

Module Executor.

Section Each.

Context {W X : Type}.
Variable body : X -> Promise W unit.
Variable key : X -> string.

(** The shape shared by [addRoute] and [deleteRoute]. *)
Definition settle (x : X) : Promise W Status :=
  catch_ (then_ (body x) (fun _ => resolve (mkStatus (key x) true)))
         (fun error => resolve (mkStatus (key x) false)).

(** The shape shared by [addRoutes] and [deleteRoutes]. *)
Definition each (l : list X) : Promise W (list Status) :=
  fold_left
    (fun sofar x =>
       then_ sofar
             (fun list =>
                then_ (settle x) (fun entry => resolve (list ++ [entry]))))
    l (resolve []).

(** The same run, target after target. *)
Fixpoint run_all (l : list X) (s : St W) : St W * list Status :=
  match l with
  | [] => (s, [])
  | x :: rest =>
      let (s1, o) := body x s in
      let (s2, r) := run_all rest s1 in
      (s2, mkStatus (key x) (is_resolved o) :: r)
  end.

End Each.

Section Client.

Context {W : Type} (C : Client W).

(** The run of [addRoutes] on the output of the differ. *)
Definition add_run (app : string) (ids : Ids) (s : St W)
  : St W * list Status :=
  run_all
    (createAndAssociate C app (domain_guid ids) (space_guid ids))
    (fun h => h) (routesToAdd ids) s.

(** The run of [deleteRoutes] on the output of the differ. *)
Definition delete_run (app : string) (flag : jsval) (ids : Ids)
    (s : St W) : St W * list Status :=
  run_all (rmRoute C app flag) host (routesToDelete ids) s.

End Client.

End Executor.

(* ================================================================= *)
(** ** Login *)

Module Login.

(** The request of [login]: the three destructured parameters. *)
Record LoginArgs : Type := mkLoginArgs {
  login_endpoint : jsval;
  username : jsval;
  password : jsval
}.

(** The requests [login] sends: [getInfo] on the cloud controller of the
    endpoint, then the login on the authorization endpoint it names. *)
Inductive uaa_call : Type :=
| GetInfo (endpoint : string)
| UaaLogin (authorization_endpoint : string) (username : jsval)
           (password : string).

(** The two operations of cf-nodejs-client [login] uses. *)
Record UaaClient (W : Type) : Type := mkUaaClient {
  cc_getInfo : string -> W -> W * outcome string;
  uaa_login : string -> jsval -> string -> W -> W * outcome jsval
}.
Arguments cc_getInfo {W} u.
Arguments uaa_login {W} u.

Definition msg_endpoint : string :=
  (quoted "endpoint" ++ " not defined, must be string.")%string.

Definition msg_username : string :=
  (quoted "username" ++ " not defined, must be string.")%string.

Definition msg_password : string :=
  (quoted "password" ++ " not defined, must be string.")%string.

(** [login]: the state is the remote world and the requests sent. *)
Definition login {W : Type} (U : UaaClient W) (args : LoginArgs)
    (s : W * list uaa_call) : (W * list uaa_call) * outcome jsval :=
  if blank_or_not_string (login_endpoint args) then
    (s, Rejected (Text msg_endpoint))
  else if negb (truthy (username args)) || negb (is_string (password args))
  then (s, Rejected (Text msg_username))
  else if negb (truthy (password args)) || negb (is_string (password args))
  then (s, Rejected (Text msg_password))
  else
    let endpoint := str_of (login_endpoint args) in
    match cc_getInfo U endpoint (fst s) with
    | (w1, Rejected e) => ((w1, snd s ++ [GetInfo endpoint]), Rejected e)
    | (w1, Resolved authorization_endpoint) =>
        let (w2, r) :=
          uaa_login U authorization_endpoint (username args)
                    (str_of (password args)) w1 in
        ((w2, snd s ++ [GetInfo endpoint;
                        UaaLogin authorization_endpoint (username args)
                                 (str_of (password args))]),
         r)
    end.


Definition guest : LoginArgs :=
  mkLoginArgs (JStr "https://api.ng.bluemix.net") (JStr "guest")
              (JStr "secret").

End Login.

(* ================================================================= *)
(** ** Platforms that fail *)

Module Faulty.

Import Mock.

(** The route has gone by the time it is looked up: the lookup by host
    finds nothing. *)
Definition racy : Client CF :=
  mkClient CF getApps getAppRoutes routesAdd
           (fun q w => (w, Resolved [])) associateRoute REST_delete
           routesRemove.

(** The lookup of applications is refused. *)
Definition apps_down : Client CF :=
  mkClient CF (fun q w => (w, Rejected (Text "401"))) getAppRoutes routesAdd
           getRoutes associateRoute REST_delete routesRemove.

(** The listing of the routes of an application is refused. *)
Definition listing_down : Client CF :=
  mkClient CF getApps (fun g w => (w, Rejected (Text "503"))) routesAdd
           getRoutes associateRoute REST_delete routesRemove.

End Faulty.

(* ================================================================= *)
(** ** More notions the properties are stated with *)

(** [trim] on the list of characters. *)
Definition trim_list (l : list ascii) : list ascii :=
  rev (drop_space (rev (drop_space l))).



Definition is_lookup (c : call) : bool :=
  match c with GetApps _ | GetAppRoutes _ => true | _ => false end.

Definition is_create (c : call) : bool :=
  match c with RoutesAdd _ _ _ => true | _ => false end.

(** The requests of the add path. *)
Definition add_path_call (c : call) : bool :=
  match c with
  | RoutesAdd _ _ _ | RoutesGetRoutes _ | AssociateRoute _ _ => true
  | _ => false
  end.

(** The requests of the delete path. *)
Definition delete_path_call (c : call) : bool :=
  match c with DeleteAppRoute _ _ | RoutesRemove _ => true | _ => false end.

(** An entry of a [routes] array whose property read throws. *)
Definition throwing_entry (r : jsval) : bool :=
  match r with JUndefined | JNull => true | _ => false end.

(** The test of the recovery of [addRoutes] on the reason of a failed
    creation: it parses as JSON and its [error_code] is
    CF-RouteHostTaken. *)
Definition host_taken (e : reason) : bool :=
  match JSON_parse_error_code e with
  | Some (Some error_code) => error_code =? "CF-RouteHostTaken"
  | _ => false
  end.

(** What [Apps.unassociateRoute] makes of the answer to its request: a
    rejection with EMPTY_BODY counts as success. *)
Definition unassociated (o : outcome unit) : bool :=
  match o with
  | Resolved _ => true
  | Rejected (Text body) => body =? "EMPTY_BODY"
  | Rejected _ => false
  end.

(** The identifiers the differ takes from a live list: those of the last
    route whose host is the application name. *)
Definition own_route_ids (appname : string) (live : list Route)
  : option string * option string :=
  match find (fun r => host r =? appname) (rev live) with
  | Some r => (Some (entity_domain_guid r), Some (entity_space_guid r))
  | None => (None, None)
  end.

(* ================================================================= *)
(** ** Facts about sets of strings *)

Module StrSetFacts.

Lemma has_In (s : StrSet.t) (x : string) :
  StrSet.has s x = true <-> In x s.
Proof.
  unfold StrSet.has. rewrite existsb_exists. split.
  - intros [y [Hy E]]. apply String.eqb_eq in E. now subst.
  - intros H. exists x. split; [assumption | apply String.eqb_refl].
Qed.

Lemma has_false (s : StrSet.t) (x : string) :
  StrSet.has s x = false <-> ~ In x s.
Proof.
  rewrite <- has_In. destruct (StrSet.has s x); split; congruence.
Qed.

Lemma delete_In (s : StrSet.t) (x y : string) :
  In y (StrSet.delete s x) <-> In y s /\ y <> x.
Proof.
  unfold StrSet.delete. rewrite filter_In, negb_true_iff, String.eqb_neq.
  intuition congruence.
Qed.

Lemma delete_NoDup (s : StrSet.t) (x : string) :
  NoDup s -> NoDup (StrSet.delete s x).
Proof. apply NoDup_filter. Qed.

Lemma add_In (s : StrSet.t) (x y : string) :
  In y (StrSet.add s x) <-> In y s \/ y = x.
Proof.
  unfold StrSet.add. destruct (StrSet.has s x) eqn:E.
  - apply has_In in E. intuition (subst; assumption).
  - rewrite in_app_iff. simpl. intuition.
Qed.

Lemma add_NoDup (s : StrSet.t) (x : string) :
  NoDup s -> NoDup (StrSet.add s x).
Proof.
  intros H. unfold StrSet.add. destruct (StrSet.has s x) eqn:E; [assumption|].
  apply has_false in E.
  apply NoDup_app; [assumption | repeat constructor; intros [] | ].
  intros a Ha [<- | []]. contradiction.
Qed.

Lemma fold_add_In (l : list string) (s : StrSet.t) (y : string) :
  In y (fold_left StrSet.add l s) <-> In y s \/ In y l.
Proof.
  revert s. induction l as [|x l IH]; intros s; simpl.
  - intuition.
  - rewrite IH, add_In. intuition.
Qed.

Lemma fold_add_NoDup (l : list string) (s : StrSet.t) :
  NoDup s -> NoDup (fold_left StrSet.add l s).
Proof.
  revert s. induction l as [|x l IH]; intros s H; simpl;
    [assumption | apply IH, add_NoDup, H].
Qed.

Lemma of_list_In (l : list string) (y : string) :
  In y (StrSet.of_list l) <-> In y l.
Proof. unfold StrSet.of_list. rewrite fold_add_In. simpl. intuition. Qed.

Lemma of_list_NoDup (l : list string) : NoDup (StrSet.of_list l).
Proof. apply fold_add_NoDup. constructor. Qed.

(** Deleting a list of elements one after the other is one filter. *)
Lemma fold_delete {A} (key : A -> string) (l : list A) (s : StrSet.t) :
  fold_left (fun set r => StrSet.delete set (key r)) l s
  = filter (fun h => negb (StrSet.has (map key l) h)) s.
Proof.
  revert s. induction l as [|x l IH]; intros s; simpl.
  - induction s as [|a s IHs]; simpl; congruence.
  - rewrite IH. unfold StrSet.delete. clear IH.
    induction s as [|a s IHs]; simpl; [reflexivity|].
    rewrite (String.eqb_sym a).
    destruct (key x =? a); simpl; [assumption|].
    destruct (StrSet.has (map key l) a); simpl; congruence.
Qed.

End StrSetFacts.

(* ================================================================= *)
(** ** The Route Differ *)

Module DifferFacts.

Section Fold.

Variable appname : string.
Variables adds dels : StrSet.t.

Local Abbreviation step := (differ_step appname adds dels).

Lemma step_routesToDelete (acc : Ids) (r : Route) :
  routesToDelete (step acc r)
  = routesToDelete acc
    ++ (if StrSet.has dels (host r) then [r] else []).
Proof.
  unfold step, differ_step.
  destruct (host r =? appname), (StrSet.has adds (host r)),
    (StrSet.has dels (host r)); simpl; now rewrite ?app_nil_r.
Qed.

Lemma step_routesToAdd (acc : Ids) (r : Route) :
  routesToAdd (step acc r)
  = if StrSet.has adds (host r)
    then StrSet.delete (routesToAdd acc) (host r)
    else routesToAdd acc.
Proof.
  unfold step, differ_step.
  destruct (host r =? appname), (StrSet.has adds (host r)),
    (StrSet.has dels (host r)); reflexivity.
Qed.

Lemma step_guids (acc : Ids) (r : Route) :
  (domain_guid (step acc r), space_guid (step acc r))
  = if host r =? appname
    then (Some (entity_domain_guid r), Some (entity_space_guid r))
    else (domain_guid acc, space_guid acc).
Proof.
  unfold step, differ_step.
  destruct (host r =? appname), (StrSet.has adds (host r)),
    (StrSet.has dels (host r)); reflexivity.
Qed.

Lemma fold_routesToDelete (routes : list Route) (acc : Ids) :
  routesToDelete (fold_left step routes acc)
  = routesToDelete acc
    ++ filter (fun r => StrSet.has dels (host r)) routes.
Proof.
  revert acc. induction routes as [|r routes IH]; intros acc; simpl.
  - now rewrite app_nil_r.
  - rewrite IH, step_routesToDelete, <- app_assoc.
    destruct (StrSet.has dels (host r)); reflexivity.
Qed.

Lemma fold_routesToAdd (routes : list Route) (acc : Ids) :
  routesToAdd (fold_left step routes acc)
  = filter (fun h => negb (StrSet.has adds h
                           && StrSet.has (map host routes) h))
           (routesToAdd acc).
Proof.
  revert acc. induction routes as [|r routes IH]; intros acc; simpl.
  - induction (routesToAdd acc) as [|a s IHs]; simpl;
      [reflexivity | rewrite andb_false_r; simpl; congruence].
  - rewrite IH, step_routesToAdd.
    destruct (StrSet.has adds (host r)) eqn:E.
    + unfold StrSet.delete.
      induction (routesToAdd acc) as [|a s IHs]; simpl; [reflexivity|].
      rewrite (String.eqb_sym a). destruct (host r =? a) eqn:Ea; simpl.
      * apply String.eqb_eq in Ea. subst a. rewrite E. simpl. exact IHs.
      * destruct (StrSet.has adds a && StrSet.has (map host routes) a);
          simpl; rewrite ?andb_false_r; simpl; congruence.
    + apply filter_ext. intros a. rewrite (String.eqb_sym a).
      destruct (host r =? a) eqn:Ea; simpl; [|reflexivity].
      apply String.eqb_eq in Ea. subst a. now rewrite E.
Qed.

(** The identifiers are those of the last record named like the
    application. *)
Lemma fold_guids (routes : list Route) (acc : Ids) :
  let ids := fold_left step routes acc in
  (domain_guid ids, space_guid ids)
  = match find (fun r => host r =? appname) (rev routes) with
    | Some r => (Some (entity_domain_guid r), Some (entity_space_guid r))
    | None => (domain_guid acc, space_guid acc)
    end.
Proof.
  induction routes as [|r routes IH] using rev_ind; simpl; [reflexivity|].
  rewrite fold_left_app, rev_app_distr. simpl.
  rewrite step_guids. destruct (host r =? appname); [reflexivity|].
  exact IH.
Qed.

End Fold.

Lemma routesToAdd_eq (routes : list Route) (appname : string)
    (adds dels : StrSet.t) :
  routesToAdd (filterAddDeleteAndGetIds routes appname adds dels)
  = filter (fun h => negb (StrSet.has (map host routes) h)) adds.
Proof.
  unfold filterAddDeleteAndGetIds. rewrite fold_routesToAdd. simpl.
  apply filter_ext_in. intros a Ha.
  apply StrSetFacts.has_In in Ha. now rewrite Ha.
Qed.

Lemma routesToDelete_eq (routes : list Route) (appname : string)
    (adds dels : StrSet.t) :
  routesToDelete (filterAddDeleteAndGetIds routes appname adds dels)
  = filter (fun r => StrSet.has dels (host r)) routes.
Proof.
  unfold filterAddDeleteAndGetIds. now rewrite fold_routesToDelete.
Qed.

End DifferFacts.

(** C7. The Route Differ.  The domain and space identifiers are those of a
    live route whose host is the application name (of the last such route
    of the list), and are undefined when there is none; [routesToAdd] is
    the requested additions without the host names of the live list;
    [routesToDelete] is the live records whose host is among the requested
    deletions. *)
Theorem differ_outputs (routes : list Route) (appname : string)
    (requestedRouteAdditions requestedRouteDeletions : StrSet.t) :
  let ids := filterAddDeleteAndGetIds routes appname
               requestedRouteAdditions requestedRouteDeletions in
  ((exists r, In r routes /\ host r = appname
              /\ find (fun r => host r =? appname) (rev routes) = Some r
              /\ domain_guid ids = Some (entity_domain_guid r)
              /\ space_guid ids = Some (entity_space_guid r))
   \/ ((forall r, In r routes -> host r <> appname)
       /\ domain_guid ids = None /\ space_guid ids = None))
  /\ routesToAdd ids
     = filter (fun h => negb (StrSet.has (map host routes) h))
              requestedRouteAdditions
  /\ routesToDelete ids
     = filter (fun r => StrSet.has requestedRouteDeletions (host r)) routes.
Proof.
  intros ids. unfold ids, filterAddDeleteAndGetIds. repeat split.
  - pose proof (DifferFacts.fold_guids appname requestedRouteAdditions
                  requestedRouteDeletions routes
                  (mkIds None None requestedRouteAdditions [])) as G.
    simpl in G.
    destruct (find (fun r => host r =? appname) (rev routes)) as [r|] eqn:F.
    + left. exists r. injection G as G1 G2.
      apply find_some in F. destruct F as [Hin Hh].
      apply in_rev in Hin. apply String.eqb_eq in Hh. auto.
    + right. injection G as G1 G2. split; [|split; assumption].
      intros r Hin Hh. rewrite in_rev in Hin.
      pose proof (find_none _ _ F r Hin) as N. simpl in N.
      apply String.eqb_neq in N. contradiction.
  - apply DifferFacts.routesToAdd_eq.
  - apply DifferFacts.routesToDelete_eq.
Qed.

(* ================================================================= *)
(** ** The Mutation Executor *)

Module ExecutorFacts.

Section Each.

Context {W X : Type}.
Variable body : X -> Promise W unit.
Variable key : X -> string.

Local Abbreviation settle := (Executor.settle body key).
Local Abbreviation each := (Executor.each body key).
Local Abbreviation run_all := (Executor.run_all body key).

Lemma settle_run (x : X) (s : St W) :
  settle x s
  = (fst (body x s),
     Resolved (mkStatus (key x) (is_resolved (snd (body x s))))).
Proof.
  unfold Executor.settle, catch_, then_, resolve.
  destruct (body x s) as [s' [u|e]]; reflexivity.
Qed.

Lemma fold_from (l : list X) (p : Promise W (list Status)) (s : St W) :
  fold_left
    (fun sofar x =>
       then_ sofar
             (fun list =>
                then_ (settle x) (fun entry => resolve (list ++ [entry]))))
    l p s
  = match p s with
    | (s1, Resolved acc) =>
        let (s2, r) := run_all l s1 in (s2, Resolved (acc ++ r))
    | (s1, Rejected e) => (s1, Rejected e)
    end.
Proof.
  revert p s. induction l as [|x l IH]; intros p s; simpl.
  - destruct (p s) as [s1 [acc|e]]; [now rewrite app_nil_r | reflexivity].
  - rewrite IH. unfold then_ at 1.
    destruct (p s) as [s1 [acc|e]]; [|reflexivity].
    unfold then_. rewrite settle_run. unfold resolve.
    destruct (body x s1) as [s2 o]. simpl.
    destruct (run_all l s2) as [s3 r].
    now rewrite <- app_assoc.
Qed.

Lemma each_run (l : list X) (s : St W) :
  each l s = (fst (run_all l s), Resolved (snd (run_all l s))).
Proof.
  unfold Executor.each. rewrite fold_from. unfold resolve.
  destruct (run_all l s); reflexivity.
Qed.

Lemma run_all_app (l1 l2 : list X) (s : St W) :
  run_all (l1 ++ l2) s
  = (fst (run_all l2 (fst (run_all l1 s))),
     snd (run_all l1 s) ++ snd (run_all l2 (fst (run_all l1 s)))).
Proof.
  revert s. induction l1 as [|x l1 IH]; intros s; simpl.
  - destruct (run_all l2 s); reflexivity.
  - destruct (body x s) as [s1 o]. rewrite IH.
    destruct (run_all l1 s1) as [s2 r]. reflexivity.
Qed.

Lemma run_all_routes (l : list X) (s : St W) :
  map route (snd (run_all l s)) = map key l.
Proof.
  revert s. induction l as [|x l IH]; intros s; simpl; [reflexivity|].
  destruct (body x s) as [s1 o]. specialize (IH s1).
  destruct (run_all l s1) as [s2 r]. simpl in *. now rewrite IH.
Qed.

(** Every target is run and recorded, whatever happens to the ones
    before it. *)
Lemma each_split (pre : list X) (x : X) (post : list X) (s : St W) :
  exists s1 r1 s2 o s3 r3,
    each pre s = (s1, Resolved r1)
    /\ body x s1 = (s2, o)
    /\ each post s2 = (s3, Resolved r3)
    /\ each (pre ++ x :: post) s
       = (s3, Resolved (r1 ++ mkStatus (key x) (is_resolved o) :: r3))
    /\ map route r1 = map key pre
    /\ map route r3 = map key post.
Proof.
  exists (fst (run_all pre s)), (snd (run_all pre s)).
  destruct (body x (fst (run_all pre s))) as [s2 o] eqn:B.
  exists s2, o, (fst (run_all post s2)), (snd (run_all post s2)).
  rewrite !each_run, run_all_app. simpl. rewrite B.
  destruct (run_all post s2) as [s3 r3] eqn:R. simpl.
  repeat split; try apply run_all_routes.
  now rewrite <- (run_all_routes post s2), R.
Qed.

(** When each target sends exactly one request, the requests are sent
    in the order of the targets. *)
Lemma run_all_trace (req : X -> call) (l : list X) (s : St W) :
  (forall x s, trace (fst (body x s)) = trace s ++ [req x]) ->
  trace (fst (run_all l s)) = trace s ++ map req l.
Proof.
  intros H. revert s. induction l as [|x l IH]; intros s; simpl.
  - now rewrite app_nil_r.
  - specialize (H x s). destruct (body x s) as [s1 o]. simpl in H.
    specialize (IH s1). destruct (run_all l s1) as [s2 r]. simpl in *.
    now rewrite IH, H, <- app_assoc.
Qed.

End Each.

Section Client.

Context {W : Type} (C : Client W).

Lemma addRoutes_each routes app d sp :
  addRoutes C routes app d sp
  = Executor.each (createAndAssociate C app d sp) (fun h => h) routes.
Proof. reflexivity. Qed.

Lemma deleteRoutes_each routes app flag :
  deleteRoutes C routes app flag
  = Executor.each (rmRoute C app flag) host routes.
Proof. reflexivity. Qed.

Lemma send_trace {A} (c : call) (op : W -> W * outcome A) (s : St W) :
  trace (fst (send c op s)) = trace s ++ [c].
Proof. unfold send. destruct (op (world s)). reflexivity. Qed.

Lemma rmRoute_trace app flag (r : Route) (s : St W) :
  trace (fst (rmRoute C app flag r s))
  = trace s ++ [if strict_eq_true flag
                then RoutesRemove (route_guid r)
                else DeleteAppRoute app (route_guid r)].
Proof.
  unfold rmRoute. destruct (strict_eq_true flag).
  - apply send_trace.
  - unfold Apps_unassociateRoute, catch_.
    pose proof (send_trace (DeleteAppRoute app (route_guid r))
                  (cc_REST_delete C app (route_guid r)) s) as T.
    destruct (send _ _ s) as [s1 [u|e]]; [exact T|].
    destruct e as [t| |]; try exact T.
    destruct (t =? "EMPTY_BODY"); exact T.
Qed.

Lemma deleteRoutes_trace routes app flag (s : St W) :
  trace (fst (deleteRoutes C routes app flag s))
  = trace s
    ++ map (fun r => if strict_eq_true flag
                     then RoutesRemove (route_guid r)
                     else DeleteAppRoute app (route_guid r)) routes.
Proof.
  rewrite deleteRoutes_each, each_run. simpl.
  apply run_all_trace. intros r s'. apply rmRoute_trace.
Qed.

End Client.

End ExecutorFacts.

(** C6. The Mutation Executor never aborts the batch.  On the add path and
    on the delete path alike, for any targets before and after a target
    and whatever the remote calls answer: the targets before are all
    recorded, the target is recorded with [ok] false exactly when its
    chain of requests is rejected, and the targets after it are then run
    from the state it left and all recorded, in order. *)
Theorem executor_never_aborts {W : Type} (C : Client W) :
  (forall (pre : list string) (h : string) (post : list string)
          (app : string) (d sp : option string) (s : St W),
      exists s1 r1 s2 o s3 r3,
        addRoutes C pre app d sp s = (s1, Resolved r1)
        /\ createAndAssociate C app d sp h s1 = (s2, o)
        /\ addRoutes C post app d sp s2 = (s3, Resolved r3)
        /\ addRoutes C (pre ++ h :: post) app d sp s
           = (s3, Resolved (r1 ++ mkStatus h (is_resolved o) :: r3))
        /\ map route r1 = pre
        /\ map route r3 = post)
  /\ (forall (pre : list Route) (r : Route) (post : list Route)
             (app : string) (flag : jsval) (s : St W),
         exists s1 r1 s2 o s3 r3,
           deleteRoutes C pre app flag s = (s1, Resolved r1)
           /\ rmRoute C app flag r s1 = (s2, o)
           /\ deleteRoutes C post app flag s2 = (s3, Resolved r3)
           /\ deleteRoutes C (pre ++ r :: post) app flag s
              = (s3, Resolved (r1 ++ mkStatus (host r) (is_resolved o) :: r3))
           /\ map route r1 = map host pre
           /\ map route r3 = map host post).
Proof.
  split.
  - intros pre h post app d sp s.
    destruct (ExecutorFacts.each_split (createAndAssociate C app d sp)
                (fun h => h) pre h post s)
      as (s1 & r1 & s2 & o & s3 & r3 & H1 & H2 & H3 & H4 & H5 & H6).
    rewrite map_id in H5, H6.
    exists s1, r1, s2, o, s3, r3. repeat split; assumption.
  - intros pre r post app flag s.
    destruct (ExecutorFacts.each_split (rmRoute C app flag) host pre r post s)
      as (s1 & r1 & s2 & o & s3 & r3 & H1 & H2 & H3 & H4 & H5 & H6).
    exists s1, r1, s2, o, s3, r3. repeat split; assumption.
Qed.

Lemma unassociate_only (app : string) (routes : list Route) :
  existsb is_remove (map (fun r => DeleteAppRoute app (route_guid r)) routes)
  = false.
Proof. induction routes; simpl; auto. Qed.

Lemma remove_only (routes : list Route) :
  existsb is_unassociate (map (fun r => RoutesRemove (route_guid r)) routes)
  = false.
Proof. induction routes; simpl; auto. Qed.

(** C5. Destroy or unassociate.  With [deleteAfterUnmap] unset the delete
    path sends, for the route records in order, the removal of the
    application-route association and nothing else, so no route deletion;
    with [deleteAfterUnmap] true it sends the route deletion for each
    record (and no removal of an association). *)
Theorem delete_path_requests {W : Type} (C : Client W)
    (routes : list Route) (app : string) (s : St W) :
  (let cs := map (fun r => DeleteAppRoute app (route_guid r)) routes in
   sent s (fst (deleteRoutes C routes app JUndefined s)) cs
   /\ existsb is_remove cs = false)
  /\ (let cs := map (fun r => RoutesRemove (route_guid r)) routes in
      sent s (fst (deleteRoutes C routes app (JBool true) s)) cs
      /\ existsb is_unassociate cs = false).
Proof.
  unfold sent. rewrite !ExecutorFacts.deleteRoutes_trace. simpl.
  repeat split; [apply unassociate_only | apply remove_only].
Qed.

Lemma strict_eq_true_false (flag : jsval) :
  flag <> JBool true -> strict_eq_true flag = false.
Proof. destruct flag as [| |[|]| | | |]; simpl; congruence. Qed.

(** C10. The destroy-intent test is strict equality with the boolean true.
    For any other value of [deleteAfterUnmap], truthy or not, the delete
    path only removes the association of each record with the
    application: no route deletion is sent. *)
Theorem destroy_intent_is_strict {W : Type} (C : Client W)
    (routes : list Route) (app : string) (flag : jsval) (s : St W) :
  flag <> JBool true ->
  let cs := map (fun r => DeleteAppRoute app (route_guid r)) routes in
  sent s (fst (deleteRoutes C routes app flag s)) cs
  /\ existsb is_remove cs = false.
Proof.
  intros H cs. unfold sent, cs.
  rewrite ExecutorFacts.deleteRoutes_trace, (strict_eq_true_false flag H).
  split; [reflexivity | apply unassociate_only].
Qed.

Lemma destroy_intent_is_strict_witness :
  JStr "true" <> JBool true
  /\ sent (Mock.start Mock.world0)
          (fst (deleteRoutes Mock.client [Mock.r_prod; Mock.r_myapp] "app-1"
                             (JStr "true") (Mock.start Mock.world0)))
          [DeleteAppRoute "app-1" "g1"; DeleteAppRoute "app-1" "g0"].
Proof.
  split; [discriminate|].
  apply (destroy_intent_is_strict Mock.client [Mock.r_prod; Mock.r_myapp]
           "app-1" (JStr "true") (Mock.start Mock.world0)).
  discriminate.
Defined.

(* ================================================================= *)
(** ** The Input Validator *)

Module ValidatorFacts.

Ltac cases :=
  repeat match goal with
         | |- context [if ?b then _ else _] => destruct b eqn:?
         | |- context [match ?x with _ => _ end] => destruct x eqn:?
         end.

Lemma basic_frame (args : Args) : fst (validateArgsBasic args) = args.
Proof. unfold validateArgsBasic. cases; reflexivity. Qed.

Lemma basic_inv (args args' : Args) (o : outcome unit) :
  validateArgsBasic args = (args', o) -> args' = args.
Proof. intros H. rewrite <- (basic_frame args), H. reflexivity. Qed.

Lemma unmap_frame (args : Args) :
  fst (validateArgsForUnmapRoutes args) = args.
Proof.
  unfold validateArgsForUnmapRoutes.
  destruct (validateArgsBasic args) as [a o] eqn:B.
  apply basic_inv in B. subst a. cases; reflexivity.
Qed.

Lemma map_frame (args : Args) :
  fst (validateArgsForMapRoutes args)
  = if appends_pair args
    then set_routes args
           (Array_push (js_or (routes args) (JArr [])) (pushed args))
    else args.
Proof.
  unfold validateArgsForMapRoutes, appends_pair.
  destruct (validateArgsBasic args) as [a o] eqn:B.
  apply basic_inv in B. subst a. destruct o as [[]|e]; simpl; [|reflexivity].
  destruct (truthy (org args)), (truthy (space args)); simpl;
    try reflexivity;
    destruct (truthy (routes args)) eqn:Tr; simpl; try reflexivity;
    destruct (Array_isArray (routes args)); simpl; try reflexivity;
    cases; reflexivity.
Qed.

Lemma map_appname (args : Args) :
  appname (fst (validateArgsForMapRoutes args)) = appname args.
Proof. rewrite map_frame. destruct (appends_pair args); reflexivity. Qed.

Lemma map_NoDup (args args' : Args) (requested : StrSet.t) :
  validateArgsForMapRoutes args = (args', Resolved requested) ->
  NoDup requested.
Proof.
  unfold validateArgsForMapRoutes.
  destruct (validateArgsBasic args) as [a [[]|e]]; [|discriminate].
  cases; intros H; inversion H; subst; apply StrSetFacts.of_list_NoDup.
Qed.

Lemma unmap_NoDup (args args' : Args) (requested : StrSet.t) :
  validateArgsForUnmapRoutes args = (args', Resolved requested) ->
  NoDup requested.
Proof.
  unfold validateArgsForUnmapRoutes.
  destruct (validateArgsBasic args) as [a [[]|e]]; [|discriminate].
  cases; intros H; inversion H; subst; apply StrSetFacts.of_list_NoDup.
Qed.

(** Where [str_of] is applied the value is a string. *)
Lemma basic_appname (args : Args) :
  snd (validateArgsBasic args) = Resolved tt ->
  exists name, appname args = JStr name.
Proof.
  unfold validateArgsBasic.
  destruct (blank_or_not_string (endpoint args)); [discriminate|].
  destruct (negb (truthy (token args)) || negb (is_object (token args)));
    [discriminate|].
  destruct (appname args) as [| | | |name| |]; simpl; try discriminate.
  intros _. now exists name.
Qed.

Lemma valid_entry_strings (r : jsval) :
  valid_route_entry r = Resolved true ->
  exists fs o s,
    r = JObj fs /\ assoc "org" fs = JStr o /\ assoc "space" fs = JStr s
    /\ org_dash_space r = (o ++ "-" ++ s)%string.
Proof.
  unfold valid_route_entry.
  destruct r as [| | | | | |fs]; simpl; try discriminate.
  destruct (assoc "org" fs) as [| | | |o| |] eqn:Eo; simpl; try discriminate.
  destruct (matches_alnum_plus o); [|discriminate].
  destruct (assoc "space" fs) as [| | | |sp| |] eqn:Es; simpl;
    try discriminate.
  intros _. exists fs, o, sp. rewrite Eo, Es. auto.
Qed.

(** The traversals of the validators only fail by throwing. *)
Lemma candidate_names_rejects (rs : list jsval) (e : reason) :
  candidate_names rs = Rejected e -> exists what, e = TypeError what.
Proof.
  unfold candidate_names.
  destruct (Array_filter valid_route_entry rs) as [kept|e'] eqn:F;
    [discriminate|].
  intros H. injection H as <-. revert e' F.
  induction rs as [|r rs IH]; simpl; intros e' F; [discriminate|].
  destruct (valid_route_entry r) as [b|e1] eqn:V.
  - destruct (Array_filter valid_route_entry rs) as [k|e2];
      [discriminate|].
    injection F as <-. now apply IH.
  - injection F as <-. unfold valid_route_entry in V.
    destruct (prop r "org") as [o|]; [|injection V as <-; eauto].
    destruct (validRouteSegment o); [|discriminate].
    destruct (prop r "space"); [discriminate | injection V as <-; eauto].
Qed.

Lemma trim_entries_rejects (rs : list jsval) (e : reason) :
  Array_map trim_entry rs = Rejected e -> exists what, e = TypeError what.
Proof.
  induction rs as [|r rs IH]; simpl; [discriminate|].
  destruct (trim_entry r) as [t|e1] eqn:T.
  - destruct (Array_map trim_entry rs) as [k|e2]; [discriminate|].
    intros H. injection H as <-. now apply IH.
  - intros H. injection H as <-.
    destruct r; simpl in T; try discriminate; injection T as <-; eauto.
Qed.

End ValidatorFacts.

(** C8 (as the code has it). Validation for [list] and for [unmap] leaves
    the request record unchanged.  Validation for [map] leaves it unchanged
    except when the basic checks pass, [org] and [space] are both given and
    [routes] is unset or an array: it then appends the pair of [org] and
    [space] to [routes] (to a fresh empty array when [routes] was unset)
    and changes no other field. *)
Theorem validation_frame (args : Args) :
  fst (validateArgsBasic args) = args
  /\ fst (validateArgsForUnmapRoutes args) = args
  /\ fst (validateArgsForMapRoutes args)
     = if appends_pair args
       then set_routes args
              (Array_push (js_or (routes args) (JArr []))
                          (pushed args))
       else args.
Proof.
  split; [apply ValidatorFacts.basic_frame|].
  split; [apply ValidatorFacts.unmap_frame | apply ValidatorFacts.map_frame].
Qed.

(** C8 fails as stated: validating a map request that gives [org] and
    [space] assigns to the request's [routes], which was unset, and a
    caller's array of routes is extended by the pair. *)
Lemma validation_mutates_routes :
  routes (Mock.map_org_space "acme" "dev") = JUndefined
  /\ routes (fst (validateArgsForMapRoutes (Mock.map_org_space "acme" "dev")))
     = JArr [Mock.pair "acme" "dev"]
  /\ fst (validateArgsForMapRoutes (Mock.map_org_space "acme" "dev"))
     <> Mock.map_org_space "acme" "dev".
Proof.
  split; [reflexivity|]. split; [vm_compute; reflexivity|].
  intros H. apply (f_equal routes) in H. vm_compute in H. discriminate H.
Qed.

(** C4 on the code. The emptiness test reads [length] of a [Set], which is
    undefined and so never equal to 0: a map request whose only entry is
    dropped (a space with a blank in it), and an unmap request whose only
    entry is blank, pass validation with an empty set, and the action goes
    on to the remote calls and resolves with an empty status.  No request
    at all is rejected for an empty set. *)
Theorem empty_candidate_set_is_accepted :
  snd (validateArgsForMapRoutes (Mock.map_args [Mock.pair "abc" "d e"]))
  = Resolved []
  /\ snd (mapRoutes Mock.client (Mock.map_args [Mock.pair "abc" "d e"])
                    (Mock.start Mock.world0))
     = (mkSt Mock.world0 [GetApps "name:myapp"; GetAppRoutes "app-1"],
        Resolved [])
  /\ snd (validateArgsForUnmapRoutes (Mock.unmap_args ["  "] JUndefined))
     = Resolved []
  /\ snd (unmapRoutes Mock.client (Mock.unmap_args ["  "] JUndefined)
                      (Mock.start Mock.world0))
     = (mkSt Mock.world0 [GetApps "name:myapp"; GetAppRoutes "app-1"],
        Resolved [])
  /\ (forall args,
         snd (validateArgsForMapRoutes args)
         <> Rejected (Text msg_no_valid_routes_to_map))
  /\ (forall args,
         snd (validateArgsForUnmapRoutes args)
         <> Rejected (Text msg_no_routes_to_unmap)).
Proof.
  repeat split; try (vm_compute; reflexivity).
  - intros args. unfold validateArgsForMapRoutes, validateArgsBasic.
    ValidatorFacts.cases; simpl; try discriminate;
      try (intros H; vm_compute in H; discriminate H).
    all: intros H; injection H as ->;
      match goal with
      | E : candidate_names _ = Rejected _ |- _ =>
          apply ValidatorFacts.candidate_names_rejects in E;
          destruct E as [what E]; discriminate E
      end.
  - intros args. unfold validateArgsForUnmapRoutes, validateArgsBasic.
    ValidatorFacts.cases; simpl; try discriminate;
      try (intros H; vm_compute in H; discriminate H).
    all: intros H; injection H as ->;
      match goal with
      | E : Array_map trim_entry _ = Rejected _ |- _ =>
          apply ValidatorFacts.trim_entries_rejects in E;
          destruct E as [what E]; discriminate E
      end.
Qed.

(* ================================================================= *)
(** ** The Outcome Reporter and the actions *)

Module ReporterFacts.

Lemma fold_push (ok : bool) (l : list string) (result : list Status) :
  fold_left (fun result r => result ++ [mkStatus r ok]) l result
  = result ++ map (fun r => mkStatus r ok) l.
Proof.
  revert result. induction l as [|x l IH]; intros result; simpl.
  - now rewrite app_nil_r.
  - now rewrite IH, <- app_assoc.
Qed.

Lemma report_eq (ok : bool) (requested : StrSet.t) (result : list Status) :
  report ok requested result
  = result ++ map (fun r => mkStatus r ok) (leftovers requested result).
Proof.
  unfold report, StrSet.to_list, leftovers.
  now rewrite StrSetFacts.fold_delete, fold_push.
Qed.

Lemma report_routes (ok : bool) (requested : StrSet.t)
    (result : list Status) :
  map route (report ok requested result)
  = map route result ++ leftovers requested result.
Proof.
  rewrite report_eq, map_app, map_map. simpl. now rewrite map_id.
Qed.

(** A list split by a test and its complement. *)
Lemma split_exactly (P : string -> bool) (l : list string) :
  NoDup l ->
  NoDup (filter (fun h => negb (P h)) l ++ filter P l)
  /\ forall h, In h l
               <-> In h (filter (fun h => negb (P h)) l ++ filter P l).
Proof.
  intros N. split.
  - apply NoDup_app; try (apply NoDup_filter; assumption).
    intros a Ha Hb. apply filter_In in Ha, Hb.
    destruct Ha as [_ Ha], Hb as [_ Hb]. rewrite Hb in Ha. discriminate.
  - intros h. rewrite in_app_iff, !filter_In.
    destruct (P h); simpl; intuition congruence.
Qed.

Lemma has_matched (requested : StrSet.t) (live : list Route) (h : string) :
  In h requested ->
  StrSet.has
    (map host (filter (fun r => StrSet.has requested (host r)) live)) h
  = StrSet.has (map host live) h.
Proof.
  intros Hin. apply StrSetFacts.has_In in Hin.
  induction live as [|r live IH]; simpl; [reflexivity|].
  destruct (StrSet.has requested (host r)) eqn:E; simpl.
  - now rewrite IH.
  - rewrite IH. destruct (h =? host r) eqn:Eh; [|reflexivity].
    apply String.eqb_eq in Eh. subst h. congruence.
Qed.

Lemma has_fresh (requested : StrSet.t) (hosts : list string) (h : string) :
  In h requested ->
  StrSet.has (filter (fun h => negb (StrSet.has hosts h)) requested) h
  = negb (StrSet.has hosts h).
Proof.
  intros Hin.
  destruct (StrSet.has hosts h) eqn:E; simpl.
  - apply StrSetFacts.has_false. rewrite filter_In, E. simpl.
    intros [_ H]. discriminate.
  - apply StrSetFacts.has_In. rewrite filter_In, E. auto.
Qed.

End ReporterFacts.

Module ActionFacts.

Section Client.

Context {W : Type} (C : Client W).

Local Abbreviation add_run := (Executor.add_run C).
Local Abbreviation delete_run := (Executor.delete_run C).

Lemma mapRoutes_run args args' requested s s1 live app :
  validateArgsForMapRoutes args = (args', Resolved requested) ->
  getAppRoutes C (str_of (appname args)) s = (s1, Resolved (live, app)) ->
  let ids := filterAddDeleteAndGetIds live (str_of (appname args))
               requested [] in
  mapRoutes C args s
  = (args', (fst (add_run app ids s1),
             Resolved (report true requested (snd (add_run app ids s1))))).
Proof.
  intros V G ids. unfold mapRoutes.
  pose proof (ValidatorFacts.map_appname args) as A.
  rewrite V in *. simpl in A. rewrite A.
  unfold catch_, then_ at 1 2. rewrite G.
  rewrite ExecutorFacts.addRoutes_each, ExecutorFacts.each_run.
  reflexivity.
Qed.

Lemma unmapRoutes_run args args' requested s s1 live app :
  validateArgsForUnmapRoutes args = (args', Resolved requested) ->
  getAppRoutes C (str_of (appname args)) s = (s1, Resolved (live, app)) ->
  let ids := filterAddDeleteAndGetIds live (str_of (appname args))
               [] requested in
  let run := delete_run app (deleteAfterUnmap args) ids s1 in
  unmapRoutes C args s
  = (args', (fst run, Resolved (report false requested (snd run)))).
Proof.
  intros V G ids run. unfold unmapRoutes.
  pose proof (ValidatorFacts.unmap_frame args) as A.
  rewrite V in *. simpl in A. subst args'.
  unfold catch_, then_ at 1 2. rewrite G.
  rewrite ExecutorFacts.deleteRoutes_each, ExecutorFacts.each_run.
  reflexivity.
Qed.

Lemma add_run_routes app live name requested s1 :
  let ids := filterAddDeleteAndGetIds live name requested [] in
  map route (snd (add_run app ids s1))
  = filter (fun h => negb (StrSet.has (map host live) h)) requested.
Proof.
  intros ids. unfold Executor.add_run.
  rewrite ExecutorFacts.run_all_routes, map_id.
  apply DifferFacts.routesToAdd_eq.
Qed.

Lemma delete_run_routes app flag live name requested s1 :
  let ids := filterAddDeleteAndGetIds live name [] requested in
  map route (snd (delete_run app flag ids s1))
  = map host (filter (fun r => StrSet.has requested (host r)) live).
Proof.
  intros ids. unfold Executor.delete_run.
  rewrite ExecutorFacts.run_all_routes. f_equal.
  apply DifferFacts.routesToDelete_eq.
Qed.

End Client.

End ActionFacts.

(** C1 (as the code has it). For a map request that passes validation and
    the application lookup, the status list has exactly one entry per
    requested host name.  For an unmap request that does, the status list
    has one entry per live route record whose host was requested, in the
    order of the live list, then one entry per requested host name with no
    live record: every requested host name appears, no other does, and
    each appears exactly once when no two of the matched live records have
    the same host. *)
Theorem status_coverage {W : Type} (C : Client W) :
  (forall args s args' requested s1 live app,
      validateArgsForMapRoutes args = (args', Resolved requested) ->
      getAppRoutes C (str_of (appname args)) s = (s1, Resolved (live, app)) ->
      exists s2 status,
        mapRoutes C args s = (args', (s2, Resolved status))
        /\ covers_exactly_once requested status)
  /\ (forall args s args' requested s1 live app,
         validateArgsForUnmapRoutes args = (args', Resolved requested) ->
         getAppRoutes C (str_of (appname args)) s
         = (s1, Resolved (live, app)) ->
         let matched :=
           filter (fun r => StrSet.has requested (host r)) live in
         exists s2 status,
           unmapRoutes C args s = (args', (s2, Resolved status))
           /\ map route status
              = map host matched
                ++ filter (fun h => negb (StrSet.has (map host live) h))
                          requested
           /\ (forall h, In h requested <-> In h (map route status))
           /\ (NoDup (map host matched) ->
               covers_exactly_once requested status)).
Proof.
  split.
  - intros args s args' requested s1 live app V G.
    rewrite (ActionFacts.mapRoutes_run C _ _ _ _ _ _ _ V G).
    eexists. eexists. split; [reflexivity|].
    unfold covers_exactly_once.
    rewrite ReporterFacts.report_routes. unfold leftovers.
    rewrite ActionFacts.add_run_routes.
    pose proof (ReporterFacts.split_exactly
                  (StrSet.has (map host live)) requested
                  (ValidatorFacts.map_NoDup _ _ _ V)) as S.
    replace (filter
               (fun h =>
                  negb (StrSet.has
                          (filter (fun h0 => negb (StrSet.has (map host live) h0))
                                  requested) h)) requested)
      with (filter (StrSet.has (map host live)) requested); [exact S|].
    apply filter_ext_in. intros a Ha.
    rewrite ReporterFacts.has_fresh by assumption. now rewrite negb_involutive.
  - intros args s args' requested s1 live app V G matched.
    rewrite (ActionFacts.unmapRoutes_run C _ _ _ _ _ _ _ V G).
    eexists. eexists. split; [reflexivity|].
    unfold covers_exactly_once.
    rewrite ReporterFacts.report_routes. unfold leftovers.
    rewrite ActionFacts.delete_run_routes. fold matched.
    assert (E : filter (fun h => negb (StrSet.has (map host matched) h))
                       requested
                = filter (fun h => negb (StrSet.has (map host live) h))
                         requested).
    { apply filter_ext_in. intros a Ha. unfold matched.
      now rewrite ReporterFacts.has_matched. }
    rewrite E.
    assert (M : forall h, In h requested
                          <-> In h (map host matched
                                    ++ filter
                                         (fun h => negb (StrSet.has (map host live) h))
                                         requested)).
    { intros h. rewrite in_app_iff, filter_In. split.
      - intros Hin. destruct (StrSet.has (map host live) h) eqn:L; [|auto].
        left. apply StrSetFacts.has_In.
        unfold matched. now rewrite ReporterFacts.has_matched.
      - intros [Hm | [Hin _]]; [|assumption].
        apply in_map_iff in Hm. destruct Hm as [r [<- Hr]].
        apply filter_In in Hr. now apply StrSetFacts.has_In. }
    split; [reflexivity|]. split; [exact M|].
    intros N. split; [|exact M].
    apply NoDup_app; [assumption | |].
    + apply NoDup_filter. exact (ValidatorFacts.unmap_NoDup _ _ _ V).
    + intros a Ha Hb. apply filter_In in Hb. destruct Hb as [_ Hb].
      apply negb_true_iff, StrSetFacts.has_false in Hb. apply Hb.
      apply in_map_iff in Ha. destruct Ha as [r [<- Hr]].
      apply in_map, (proj1 (filter_In _ _ _) Hr).
Qed.

Lemma status_coverage_witness :
  (validateArgsForMapRoutes Scenario.map_two
   = (Scenario.map_two, Resolved ["myapp-stage"; "myapp-prod"])
   /\ getAppRoutes Mock.client (str_of (appname Scenario.map_two))
                   (Mock.start Mock.world0)
      = (Scenario.listed Mock.world0,
         Resolved ([Mock.r_myapp; Mock.r_prod], "app-1"))
   /\ exists s2 status,
       mapRoutes Mock.client Scenario.map_two (Mock.start Mock.world0)
       = (Scenario.map_two, (s2, Resolved status))
       /\ covers_exactly_once ["myapp-stage"; "myapp-prod"] status)
  /\ (validateArgsForUnmapRoutes Scenario.unmap_two
      = (Scenario.unmap_two, Resolved ["myapp-prod"; "nope"])
      /\ getAppRoutes Mock.client (str_of (appname Scenario.unmap_two))
                      (Mock.start Mock.world0)
         = (Scenario.listed Mock.world0,
            Resolved ([Mock.r_myapp; Mock.r_prod], "app-1"))
      /\ NoDup (map host
                  (filter (fun r => StrSet.has ["myapp-prod"; "nope"] (host r))
                          [Mock.r_myapp; Mock.r_prod]))
      /\ exists s2 status,
          unmapRoutes Mock.client Scenario.unmap_two (Mock.start Mock.world0)
          = (Scenario.unmap_two, (s2, Resolved status))
          /\ covers_exactly_once ["myapp-prod"; "nope"] status).
Proof.
  assert (V1 : validateArgsForMapRoutes Scenario.map_two
               = (Scenario.map_two, Resolved ["myapp-stage"; "myapp-prod"]))
    by (vm_compute; reflexivity).
  assert (G1 : getAppRoutes Mock.client (str_of (appname Scenario.map_two))
                            (Mock.start Mock.world0)
               = (Scenario.listed Mock.world0,
                  Resolved ([Mock.r_myapp; Mock.r_prod], "app-1")))
    by (vm_compute; reflexivity).
  assert (V2 : validateArgsForUnmapRoutes Scenario.unmap_two
               = (Scenario.unmap_two, Resolved ["myapp-prod"; "nope"]))
    by (vm_compute; reflexivity).
  assert (G2 : getAppRoutes Mock.client (str_of (appname Scenario.unmap_two))
                            (Mock.start Mock.world0)
               = (Scenario.listed Mock.world0,
                  Resolved ([Mock.r_myapp; Mock.r_prod], "app-1")))
    by (vm_compute; reflexivity).
  assert (N : NoDup (map host
                       (filter
                          (fun r => StrSet.has ["myapp-prod"; "nope"] (host r))
                          [Mock.r_myapp; Mock.r_prod]))).
  { vm_compute. constructor; [intros [] | constructor]. }
  split.
  - split; [exact V1|]. split; [exact G1|].
    exact (proj1 (status_coverage Mock.client) _ _ _ _ _ _ _ V1 G1).
  - split; [exact V2|]. split; [exact G2|]. split; [exact N|].
    destruct (proj2 (status_coverage Mock.client) _ _ _ _ _ _ _ V2 G2)
      as (s2 & status & R & _ & _ & Once).
    exists s2, status. split; [exact R | exact (Once N)].
Defined.

(** C1 fails as stated on [unmap]: when the application has the requested
    host on two domains, both live records are processed and the status
    list names the host twice. *)
Lemma unmap_reports_a_host_twice :
  validateArgsForUnmapRoutes Scenario.unmap_prod
  = (Scenario.unmap_prod, Resolved ["myapp-prod"])
  /\ getAppRoutes Mock.client "myapp" (Mock.start Mock.world_two_domains)
     = (Scenario.listed Mock.world_two_domains,
        Resolved ([Mock.r_myapp; Mock.r_prod; Mock.r_prod2], "app-1"))
  /\ snd (snd (unmapRoutes Mock.client Scenario.unmap_prod
                           (Mock.start Mock.world_two_domains)))
     = Resolved [mkStatus "myapp-prod" true; mkStatus "myapp-prod" true]
  /\ ~ covers_exactly_once ["myapp-prod"]
         [mkStatus "myapp-prod" true; mkStatus "myapp-prod" true].
Proof.
  repeat split; try (vm_compute; reflexivity).
  intros [N _]. simpl in N. inversion N as [|x l Hx Hl]; subst.
  apply Hx. left. reflexivity.
Qed.

(** C2. The leftover policy.  On [map], a requested host name with no
    entry in the executor's result is one the live list already has, and
    the final status carries it with [ok] true (and not with false).  On
    [unmap], a requested host name with no entry in the executor's result
    is one no live record has, and the final status carries it with [ok]
    false (and not with true). *)
Theorem leftover_policy {W : Type} (C : Client W) :
  (forall args s args' requested s1 live app,
      validateArgsForMapRoutes args = (args', Resolved requested) ->
      getAppRoutes C (str_of (appname args)) s = (s1, Resolved (live, app)) ->
      let ids := filterAddDeleteAndGetIds live (str_of (appname args))
                   requested [] in
      exists s2 result status,
        addRoutes C (routesToAdd ids) app (domain_guid ids) (space_guid ids) s1
        = (s2, Resolved result)
        /\ mapRoutes C args s = (args', (s2, Resolved status))
        /\ forall h, In h requested -> ~ In h (map route result) ->
                     In h (map host live)
                     /\ In (mkStatus h true) status
                     /\ ~ In (mkStatus h false) status)
  /\ (forall args s args' requested s1 live app,
         validateArgsForUnmapRoutes args = (args', Resolved requested) ->
         getAppRoutes C (str_of (appname args)) s
         = (s1, Resolved (live, app)) ->
         let ids := filterAddDeleteAndGetIds live (str_of (appname args))
                      [] requested in
         exists s2 result status,
           deleteRoutes C (routesToDelete ids) app (deleteAfterUnmap args) s1
           = (s2, Resolved result)
           /\ unmapRoutes C args s = (args', (s2, Resolved status))
           /\ forall h, In h requested -> ~ In h (map route result) ->
                        ~ In h (map host live)
                        /\ In (mkStatus h false) status
                        /\ ~ In (mkStatus h true) status).
Proof.
  assert (L : forall ok requested result h,
             In h requested -> ~ In h (map route result) ->
             In (mkStatus h ok) (report ok requested result)
             /\ ~ In (mkStatus h (negb ok)) (report ok requested result)).
  { intros ok requested result h Hin Hout.
    rewrite ReporterFacts.report_eq. split.
    - apply in_or_app. right. apply in_map_iff. exists h. split; [reflexivity|].
      unfold leftovers. apply filter_In. split; [assumption|].
      now apply negb_true_iff, StrSetFacts.has_false.
    - intros H. apply in_app_or in H. destruct H as [H|H].
      + apply Hout. apply in_map_iff. exists (mkStatus h (negb ok)). auto.
      + apply in_map_iff in H. destruct H as [x [E _]].
        injection E as _ E. destruct ok; discriminate. }
  split.
  - intros args s args' requested s1 live app V G ids.
    rewrite (ActionFacts.mapRoutes_run C _ _ _ _ _ _ _ V G). fold ids.
    rewrite ExecutorFacts.addRoutes_each, ExecutorFacts.each_run.
    eexists. eexists. eexists. split; [reflexivity|]. split; [reflexivity|].
    intros h Hin Hout. split; [|exact (L true _ _ h Hin Hout)].
    fold (Executor.add_run C app ids s1) in Hout.
    unfold ids in Hout. rewrite ActionFacts.add_run_routes in Hout.
    rewrite filter_In in Hout.
    destruct (StrSet.has (map host live) h) eqn:E.
    + now apply StrSetFacts.has_In.
    + exfalso. apply Hout. auto.
  - intros args s args' requested s1 live app V G ids.
    rewrite (ActionFacts.unmapRoutes_run C _ _ _ _ _ _ _ V G). fold ids.
    rewrite ExecutorFacts.deleteRoutes_each, ExecutorFacts.each_run.
    eexists. eexists. eexists. split; [reflexivity|]. split; [reflexivity|].
    intros h Hin Hout. split; [|exact (L false _ _ h Hin Hout)].
    fold (Executor.delete_run C app (deleteAfterUnmap args) ids s1) in Hout.
    unfold ids in Hout. rewrite ActionFacts.delete_run_routes in Hout.
    intros Hlive. apply Hout. apply StrSetFacts.has_In.
    rewrite ReporterFacts.has_matched by assumption.
    now apply StrSetFacts.has_In.
Qed.

Lemma leftover_policy_witness :
  (validateArgsForMapRoutes Scenario.map_two
   = (Scenario.map_two, Resolved ["myapp-stage"; "myapp-prod"])
   /\ getAppRoutes Mock.client (str_of (appname Scenario.map_two))
                   (Mock.start Mock.world0)
      = (Scenario.listed Mock.world0,
         Resolved ([Mock.r_myapp; Mock.r_prod], "app-1"))
   /\ exists s2 result status,
       mapRoutes Mock.client Scenario.map_two (Mock.start Mock.world0)
       = (Scenario.map_two, (s2, Resolved status))
       /\ (In "myapp-prod" ["myapp-stage"; "myapp-prod"] ->
           ~ In "myapp-prod" (map route result) ->
           In (mkStatus "myapp-prod" true) status))
  /\ (validateArgsForUnmapRoutes Scenario.unmap_two
      = (Scenario.unmap_two, Resolved ["myapp-prod"; "nope"])
      /\ getAppRoutes Mock.client (str_of (appname Scenario.unmap_two))
                      (Mock.start Mock.world0)
         = (Scenario.listed Mock.world0,
            Resolved ([Mock.r_myapp; Mock.r_prod], "app-1"))
      /\ exists s2 result status,
          unmapRoutes Mock.client Scenario.unmap_two (Mock.start Mock.world0)
          = (Scenario.unmap_two, (s2, Resolved status))
          /\ (In "nope" ["myapp-prod"; "nope"] ->
              ~ In "nope" (map route result) ->
              In (mkStatus "nope" false) status)).
Proof.
  assert (V1 : validateArgsForMapRoutes Scenario.map_two
               = (Scenario.map_two, Resolved ["myapp-stage"; "myapp-prod"]))
    by (vm_compute; reflexivity).
  assert (G1 : getAppRoutes Mock.client (str_of (appname Scenario.map_two))
                            (Mock.start Mock.world0)
               = (Scenario.listed Mock.world0,
                  Resolved ([Mock.r_myapp; Mock.r_prod], "app-1")))
    by (vm_compute; reflexivity).
  assert (V2 : validateArgsForUnmapRoutes Scenario.unmap_two
               = (Scenario.unmap_two, Resolved ["myapp-prod"; "nope"]))
    by (vm_compute; reflexivity).
  assert (G2 : getAppRoutes Mock.client (str_of (appname Scenario.unmap_two))
                            (Mock.start Mock.world0)
               = (Scenario.listed Mock.world0,
                  Resolved ([Mock.r_myapp; Mock.r_prod], "app-1")))
    by (vm_compute; reflexivity).
  split.
  - split; [exact V1|]. split; [exact G1|].
    destruct (proj1 (leftover_policy Mock.client) _ _ _ _ _ _ _ V1 G1)
      as (s2 & result & status & _ & R & L).
    exists s2, result, status. split; [exact R|].
    intros Hin Hout. exact (proj1 (proj2 (L _ Hin Hout))).
  - split; [exact V2|]. split; [exact G2|].
    destruct (proj2 (leftover_policy Mock.client) _ _ _ _ _ _ _ V2 G2)
      as (s2 & result & status & _ & R & L).
    exists s2, result, status. split; [exact R|].
    intros Hin Hout. exact (proj1 (proj2 (L _ Hin Hout))).
Defined.

(** C3 (as the code has it). When the creation of the route for a host
    name is rejected with the code CF-RouteHostTaken, the existing route is
    looked up by host; when the lookup returns a record, the first one is
    associated with the application and the entry for the host name has
    [ok] true when that association succeeds and false when it fails.  The
    three requests are sent in this order and no other. *)
Theorem conflict_recovery {W : Type} (C : Client W)
    (app : string) (d sp : option string) (h : string) (s : St W)
    (w1 w2 w3 : W) (e : reason) (description : string)
    (r : Route) (others : list Route) (o : outcome unit) :
  cc_routesAdd C d sp h (world s) = (w1, Rejected e) ->
  e = JsonError (Some "CF-RouteHostTaken") description ->
  cc_getRoutes C ("host:" ++ h)%string w1 = (w2, Resolved (r :: others)) ->
  cc_associateRoute C app (route_guid r) w2 = (w3, o) ->
  addRoute C app d sp h s
  = (mkSt w3 (trace s ++ [RoutesAdd d sp h;
                          RoutesGetRoutes ("host:" ++ h)%string;
                          AssociateRoute app (route_guid r)]),
     Resolved (mkStatus h (is_resolved o))).
Proof.
  intros A E G B. subst e.
  unfold addRoute, createAndAssociate, recover, catch_, then_,
    Routes_add, Routes_getRoutes, Apps_associateRoute, send, resolve, reject.
  rewrite A. simpl in G |- *. rewrite G. simpl. rewrite B.
  rewrite <- !app_assoc. simpl.
  destruct o; reflexivity.
Qed.

Lemma conflict_recovery_witness :
  cc_routesAdd Mock.client (Some "D") (Some "S") "acme-dev"
               (world (Scenario.listed Mock.world0))
  = (Mock.world0,
     Rejected (JsonError (Some "CF-RouteHostTaken") "host is taken"))
  /\ cc_getRoutes Mock.client "host:acme-dev" Mock.world0
     = (Mock.world0, Resolved [Mock.r_taken])
  /\ cc_associateRoute Mock.client "app-1" "g3" Mock.world0
     = (Mock.mkCF (Mock.cf_routes Mock.world0) ["g0"; "g1"; "g3"] [],
        Resolved tt)
  /\ snd (addRoute Mock.client "app-1" (Some "D") (Some "S") "acme-dev"
                   (Scenario.listed Mock.world0))
     = Resolved (mkStatus "acme-dev" true).
Proof.
  assert (A : cc_routesAdd Mock.client (Some "D") (Some "S") "acme-dev"
                           (world (Scenario.listed Mock.world0))
              = (Mock.world0,
                 Rejected (JsonError (Some "CF-RouteHostTaken")
                                     "host is taken")))
    by (vm_compute; reflexivity).
  assert (G : cc_getRoutes Mock.client ("host:" ++ "acme-dev")%string
                           Mock.world0
              = (Mock.world0, Resolved [Mock.r_taken]))
    by (vm_compute; reflexivity).
  assert (B : cc_associateRoute Mock.client "app-1"
                                (route_guid Mock.r_taken) Mock.world0
              = (Mock.mkCF (Mock.cf_routes Mock.world0) ["g0"; "g1"; "g3"] [],
                 Resolved tt))
    by (vm_compute; reflexivity).
  split; [exact A|]. split; [exact G|]. split; [exact B|].
  rewrite (conflict_recovery Mock.client "app-1" (Some "D") (Some "S")
             "acme-dev" (Scenario.listed Mock.world0) _ _ _ _ _ _ _ _
             A eq_refl G B).
  reflexivity.
Defined.

(** C3 fails as stated: the creation is rejected with CF-RouteHostTaken,
    the existing route is found, its association is refused, and the host
    name is reported with [ok] false. *)
Lemma conflict_can_end_in_failure :
  cc_routesAdd Mock.client (Some "D") (Some "S") "acme-dev" Mock.world_frozen
  = (Mock.world_frozen,
     Rejected (JsonError (Some "CF-RouteHostTaken") "host is taken"))
  /\ addRoute Mock.client "app-1" (Some "D") (Some "S") "acme-dev"
              (Scenario.listed Mock.world_frozen)
     = (mkSt Mock.world_frozen
             [GetApps "name:myapp"; GetAppRoutes "app-1";
              RoutesAdd (Some "D") (Some "S") "acme-dev";
              RoutesGetRoutes "host:acme-dev";
              AssociateRoute "app-1" "g3"],
        Resolved (mkStatus "acme-dev" false))
  /\ snd (snd (mapRoutes Mock.client Scenario.map_taken
                         (Mock.start Mock.world_frozen)))
     = Resolved [mkStatus "acme-dev" false].
Proof. repeat split; vm_compute; reflexivity. Qed.

Module LookupFacts.

Section Client.

Context {W : Type} (C : Client W).

Lemma getAppRoutes_not_one (name : string) (s : St W) (w1 : W)
    (apps : list App) :
  cc_getApps C ("name:" ++ name)%string (world s) = (w1, Resolved apps) ->
  List.length apps <> 1 ->
  getAppRoutes C name s
  = (mkSt w1 (trace s ++ [GetApps ("name:" ++ name)%string]),
     Rejected (Text ("App " ++ name ++ " not found.")%string)).
Proof.
  intros G L. unfold getAppRoutes, then_, Apps_getApps, send.
  rewrite G. destruct apps as [|a [|b apps]]; simpl in *;
    try reflexivity. contradiction L; reflexivity.
Qed.

End Client.

End LookupFacts.

(** C9. When the lookup of the application by name answers with a list of
    records that does not have exactly one element, each of [list], [map]
    and [unmap], once its validation has passed, is rejected with the
    message that the application was not found; the lookup is the only
    request sent: the routes are not listed and nothing is created,
    associated, unassociated or deleted. *)
Theorem lookup_failure_aborts {W : Type} (C : Client W) (args : Args)
    (s : St W) (w1 : W) (apps : list App) :
  cc_getApps C ("name:" ++ str_of (appname args))%string (world s)
  = (w1, Resolved apps) ->
  List.length apps <> 1 ->
  let rejected :=
    (mkSt w1 (trace s ++ [GetApps ("name:" ++ str_of (appname args))%string]),
     @Rejected (list Status)
       (Text ("App " ++ str_of (appname args) ++ " not found.")%string)) in
  (snd (validateArgsBasic args) = Resolved tt ->
   listRoutes C args s
   = (args, (fst rejected,
             Rejected (Text ("App " ++ str_of (appname args)
                             ++ " not found.")%string))))
  /\ (forall args' requested,
         validateArgsForMapRoutes args = (args', Resolved requested) ->
         mapRoutes C args s = (args', rejected))
  /\ (forall args' requested,
         validateArgsForUnmapRoutes args = (args', Resolved requested) ->
         unmapRoutes C args s = (args', rejected)).
Proof.
  intros G L rejected.
  pose proof (LookupFacts.getAppRoutes_not_one C _ s w1 apps G L) as R.
  repeat split.
  - intros V. unfold listRoutes.
    destruct (validateArgsBasic args) as [a o] eqn:B.
    pose proof (ValidatorFacts.basic_inv _ _ _ B). subst a.
    simpl in V. subst o. unfold then_. rewrite R. reflexivity.
  - intros args' requested V. unfold mapRoutes.
    pose proof (ValidatorFacts.map_appname args) as A.
    rewrite V in *. simpl in A. rewrite A.
    unfold catch_, then_. rewrite R. reflexivity.
  - intros args' requested V. unfold unmapRoutes.
    pose proof (ValidatorFacts.unmap_frame args) as A.
    rewrite V in *. simpl in A. subst args'.
    unfold catch_, then_. rewrite R. reflexivity.
Qed.

Lemma lookup_failure_aborts_witness :
  cc_getApps Mock.client "name:ghost" Mock.world0 = (Mock.world0, Resolved [])
  /\ List.length (@nil App) <> 1
  /\ snd (validateArgsBasic Scenario.ghost) = Resolved tt
  /\ snd (validateArgsForMapRoutes Scenario.ghost) = Resolved ["acme-dev"]
  /\ snd (validateArgsForUnmapRoutes Scenario.ghost) = Resolved ["myapp-prod"]
  /\ snd (listRoutes Mock.client Scenario.ghost (Mock.start Mock.world0))
     = (mkSt Mock.world0 [GetApps "name:ghost"],
        Rejected (Text "App ghost not found."))
  /\ snd (mapRoutes Mock.client Scenario.ghost (Mock.start Mock.world0))
     = (mkSt Mock.world0 [GetApps "name:ghost"],
        Rejected (Text "App ghost not found."))
  /\ snd (unmapRoutes Mock.client Scenario.ghost (Mock.start Mock.world0))
     = (mkSt Mock.world0 [GetApps "name:ghost"],
        Rejected (Text "App ghost not found.")).
Proof.
  assert (G : cc_getApps Mock.client
                ("name:" ++ str_of (appname Scenario.ghost))%string
                (world (Mock.start Mock.world0))
              = (Mock.world0, Resolved []))
    by (vm_compute; reflexivity).
  assert (L : List.length (@nil App) <> 1) by (simpl; lia).
  assert (VB : snd (validateArgsBasic Scenario.ghost) = Resolved tt)
    by (vm_compute; reflexivity).
  assert (VM : validateArgsForMapRoutes Scenario.ghost
               = (fst (validateArgsForMapRoutes Scenario.ghost),
                  Resolved ["acme-dev"]))
    by (vm_compute; reflexivity).
  assert (VU : validateArgsForUnmapRoutes Scenario.ghost
               = (Scenario.ghost, Resolved ["myapp-prod"]))
    by (vm_compute; reflexivity).
  destruct (lookup_failure_aborts Mock.client Scenario.ghost
              (Mock.start Mock.world0) Mock.world0 [] G L)
    as (HL & HM & HU).
  split; [exact G|]. split; [exact L|]. split; [exact VB|].
  split; [rewrite VM; reflexivity|]. split; [rewrite VU; reflexivity|].
  split; [rewrite (HL VB); reflexivity|].
  split; [rewrite (HM _ _ VM); reflexivity
         | rewrite (HU _ _ VU); reflexivity].
Defined.

(* ================================================================= *)
(** ** Facts about white space *)

Module TrimFacts.


(** What [drop_space] leaves is empty or starts with a character that is
    not white space. *)
Lemma drop_space_head (l : list ascii) :
  match drop_space l with
  | [] => True
  | c :: _ => is_space c = false
  end.
Proof.
  induction l as [|c l IH]; simpl; [exact I|].
  destruct (is_space c) eqn:E; [exact IH | exact E].
Qed.

Lemma drop_space_fixed (c : ascii) (l : list ascii) :
  is_space c = false -> drop_space (c :: l) = c :: l.
Proof. intros E. simpl. now rewrite E. Qed.

Lemma drop_space_idem (l : list ascii) :
  drop_space (drop_space l) = drop_space l.
Proof.
  pose proof (drop_space_head l) as H.
  destruct (drop_space l) as [|c r]; [reflexivity|].
  now apply drop_space_fixed.
Qed.

(** Dropping leading white space keeps a last character that is not white
    space. *)
Lemma drop_space_last (l : list ascii) (c : ascii) :
  is_space c = false -> exists m, drop_space (l ++ [c]) = m ++ [c].
Proof.
  intros E. induction l as [|a l IH]; simpl.
  - rewrite E. now exists [].
  - destruct (is_space a); [exact IH|]. now exists (a :: l).
Qed.



(** The first and the last character of a trimmed list are not white
    space. *)
Lemma trim_list_ends (l : list ascii) :
  drop_space (trim_list l) = trim_list l
  /\ drop_space (rev (trim_list l)) = rev (trim_list l).
Proof.
  split.
  - unfold trim_list.
    pose proof (drop_space_head l) as H.
    destruct (drop_space l) as [|c a]; [reflexivity|].
    change (rev (c :: a)) with (rev a ++ [c]).
    destruct (drop_space_last (rev a) c H) as [m Hm]. rewrite Hm.
    rewrite rev_app_distr. change (rev [c] ++ rev m) with (c :: rev m).
    apply (drop_space_fixed c _ H).
  - unfold trim_list. rewrite rev_involutive. apply drop_space_idem.
Qed.






End TrimFacts.

(* ================================================================= *)
(** ** More on the Input Validator *)

Module ValidatorMore.

Lemma length_append (a b : string) :
  String.length (a ++ b)%string = String.length a + String.length b.
Proof. induction a as [|c a IH]; simpl; [reflexivity | now rewrite IH]. Qed.


(** What [Array_filter] keeps. *)
Lemma Array_filter_In {A} (f : A -> outcome bool) (l kept : list A) :
  Array_filter f l = Resolved kept ->
  forall x, In x kept <-> In x l /\ f x = Resolved true.
Proof.
  revert kept. induction l as [|a l IH]; simpl; intros kept H x.
  - injection H as <-. simpl. tauto.
  - destruct (f a) as [b|e] eqn:Fa; [|discriminate].
    destruct (Array_filter f l) as [k|e]; [|discriminate].
    injection H as <-. specialize (IH k eq_refl x).
    destruct b; simpl; rewrite IH; intuition (subst; auto; congruence).
Qed.

Lemma entry_throws (r : jsval) :
  throwing_entry r = true ->
  valid_route_entry r = Rejected (TypeError "Cannot read property 'org'").
Proof. destruct r; simpl; try discriminate; reflexivity. Qed.

Lemma entry_resolves (r : jsval) :
  throwing_entry r = false -> exists b, valid_route_entry r = Resolved b.
Proof.
  destruct r as [| | | | | |fs]; simpl; try discriminate; intros _;
    unfold valid_route_entry; simpl; eauto.
  destruct (validRouteSegment (assoc "org" fs)); eauto.
Qed.

(** The filter of the map validator throws exactly on an undefined or
    null entry. *)
Lemma filter_entries_throw (l : list jsval) :
  if existsb throwing_entry l
  then Array_filter valid_route_entry l
       = Rejected (TypeError "Cannot read property 'org'")
  else exists kept, Array_filter valid_route_entry l = Resolved kept.
Proof.
  induction l as [|r l IH]; simpl; [now exists []|].
  destruct (throwing_entry r) eqn:T; simpl.
  - now rewrite (entry_throws r T).
  - destruct (entry_resolves r T) as [b ->].
    destruct (existsb throwing_entry l).
    + now rewrite IH.
    + destruct IH as [k ->]. eexists. reflexivity.
Qed.

Lemma existsb_throwing_push (l : list jsval) (fs : list (string * jsval)) :
  existsb throwing_entry (l ++ [JObj fs]) = existsb throwing_entry l.
Proof. rewrite existsb_app. simpl. now rewrite !orb_false_r. Qed.

(** A resolved map validation, taken apart. *)
Lemma map_resolved_inv (args args' : Args) (requested : StrSet.t) :
  validateArgsForMapRoutes args = (args', Resolved requested) ->
  exists names,
    candidate_names (elements (routes args')) = Resolved names
    /\ requested = StrSet.of_list names.
Proof.
  unfold validateArgsForMapRoutes.
  destruct (validateArgsBasic args) as [a [[]|e]] eqn:B; [|discriminate].
  apply ValidatorFacts.basic_inv in B. subst a.
  ValidatorFacts.cases; intros H; inversion H; subst; eauto.
Qed.


Lemma trim_entries_throw (l : list jsval) :
  existsb (fun r => negb (is_string r)) l = true ->
  Array_map trim_entry l = Rejected (TypeError "r.trim is not a function").
Proof.
  induction l as [|r l IH]; simpl; [discriminate|].
  destruct r as [| | | |s| |]; simpl; try reflexivity.
  intros H. now rewrite (IH H).
Qed.


(** A rejected validation ends the action where it started. *)
Section Rejected.

Context {W : Type} (C : Client W).

Lemma list_rejected args s e :
  snd (validateArgsBasic args) = Rejected e ->
  listRoutes C args s = (args, (s, Rejected e)).
Proof.
  unfold listRoutes. destruct (validateArgsBasic args) as [a o] eqn:B.
  apply ValidatorFacts.basic_inv in B. subst a. simpl. now intros ->.
Qed.

Lemma map_rejected args s e :
  snd (validateArgsForMapRoutes args) = Rejected e ->
  mapRoutes C args s
  = (fst (validateArgsForMapRoutes args), (s, Rejected e)).
Proof.
  unfold mapRoutes. destruct (validateArgsForMapRoutes args) as [a o].
  simpl. now intros ->.
Qed.

Lemma unmap_rejected args s e :
  snd (validateArgsForUnmapRoutes args) = Rejected e ->
  unmapRoutes C args s = (args, (s, Rejected e)).
Proof.
  unfold unmapRoutes.
  pose proof (ValidatorFacts.unmap_frame args) as F.
  destruct (validateArgsForUnmapRoutes args) as [a o].
  simpl in *. subst a. now intros ->.
Qed.

End Rejected.

End ValidatorMore.


(** X2. The set a map validation resolves with holds exactly the names
    org-space of the entries of [routes] (the pair of [org] and [space]
    included, once pushed) whose org and space are both strings of one or
    more characters of 0-9, a-z, A-Z, with at most 62 characters in
    both together. *)
Theorem map_requested_names (args args' : Args) (requested : StrSet.t) :
  validateArgsForMapRoutes args = (args', Resolved requested) ->
  forall h,
    In h requested
    <-> exists fs o s,
          In (JObj fs) (elements (routes args'))
          /\ assoc "org" fs = JStr o /\ assoc "space" fs = JStr s
          /\ matches_alnum_plus o = true /\ matches_alnum_plus s = true
          /\ String.length o + String.length s <= 62
          /\ h = (o ++ "-" ++ s)%string.
Proof.
  intros V h.
  destruct (ValidatorMore.map_resolved_inv _ _ _ V) as [names [Cn ->]].
  rewrite StrSetFacts.of_list_In.
  unfold candidate_names in Cn.
  destruct (Array_filter valid_route_entry (elements (routes args')))
    as [kept|e] eqn:F; [|discriminate].
  injection Cn as <-.
  pose proof (ValidatorMore.Array_filter_In _ _ _ F) as K.
  rewrite filter_In, in_map_iff. split.
  - intros [[r [Er Hr]] Len]. apply K in Hr. destruct Hr as [Hin Hv].
    destruct (ValidatorFacts.valid_entry_strings r Hv)
      as (fs & o & s & -> & Eo & Es & Eh).
    exists fs, o, s. rewrite Eh in Er. subst h.
    unfold valid_route_entry in Hv. simpl in Hv. rewrite Eo, Es in Hv.
    simpl in Hv. destruct (matches_alnum_plus o) eqn:Mo; [|discriminate].
    injection Hv as Ms.
    apply Nat.leb_le in Len.
    rewrite !ValidatorMore.length_append in Len. simpl in Len.
    repeat split; auto. lia.
  - intros (fs & o & s & Hin & Eo & Es & Mo & Ms & Len & ->).
    assert (Hv : valid_route_entry (JObj fs) = Resolved true).
    { unfold valid_route_entry. simpl. rewrite Eo, Es. simpl.
      now rewrite Mo, Ms. }
    split.
    + exists (JObj fs). split; [|apply K; auto].
      simpl. now rewrite Eo, Es.
    + apply Nat.leb_le. rewrite !ValidatorMore.length_append. simpl. lia.
Qed.

Lemma map_requested_names_witness :
  validateArgsForMapRoutes Scenario.map_two
  = (Scenario.map_two, Resolved ["myapp-stage"; "myapp-prod"])
  /\ (In "myapp-prod" ["myapp-stage"; "myapp-prod"]
      <-> exists fs o s,
            In (JObj fs) (elements (routes Scenario.map_two))
            /\ assoc "org" fs = JStr o /\ assoc "space" fs = JStr s
            /\ matches_alnum_plus o = true /\ matches_alnum_plus s = true
            /\ String.length o + String.length s <= 62
            /\ "myapp-prod" = (o ++ "-" ++ s)%string).
Proof.
  assert (V : validateArgsForMapRoutes Scenario.map_two
              = (Scenario.map_two, Resolved ["myapp-stage"; "myapp-prod"]))
    by (vm_compute; reflexivity).
  split; [exact V|].
  exact (map_requested_names _ _ _ V "myapp-prod").
Defined.

(** X3. An undefined or null entry in the [routes] array of a map request
    makes the validation throw: the request is rejected with a TypeError
    whatever its other entries are.  Without such an entry the validation
    resolves; entries of any other kind never make it fail. *)
Theorem map_null_entry_throws (args : Args) (l : list jsval) :
  snd (validateArgsBasic args) = Resolved tt ->
  routes args = JArr l ->
  truthy (org args) = truthy (space args) ->
  if existsb throwing_entry l
  then snd (validateArgsForMapRoutes args)
       = Rejected (TypeError "Cannot read property 'org'")
  else exists requested,
         snd (validateArgsForMapRoutes args) = Resolved requested.
Proof.
  intros B R T. unfold validateArgsForMapRoutes.
  destruct (validateArgsBasic args) as [a o] eqn:E.
  apply ValidatorFacts.basic_inv in E. subst a. simpl in B. subst o.
  rewrite R, <- T. simpl.
  destruct (truthy (org args)) eqn:To; simpl.
  - unfold candidate_names.
    pose proof (ValidatorMore.filter_entries_throw
                  (l ++ [JObj [("org", org args); ("space", space args)]]))
      as F.
    rewrite ValidatorMore.existsb_throwing_push in F.
    destruct (existsb throwing_entry l).
    + now rewrite F.
    + destruct F as [kept ->]. simpl. eexists. reflexivity.
  - rewrite R. simpl. unfold candidate_names.
    pose proof (ValidatorMore.filter_entries_throw l) as F.
    destruct (existsb throwing_entry l).
    + now rewrite F.
    + destruct F as [kept ->]. simpl. eexists. reflexivity.
Qed.

Lemma map_null_entry_throws_witness :
  snd (validateArgsBasic (Mock.map_args [Mock.pair "myapp" "prod"; JNull]))
  = Resolved tt
  /\ snd (validateArgsForMapRoutes
            (Mock.map_args [Mock.pair "myapp" "prod"; JNull]))
     = Rejected (TypeError "Cannot read property 'org'").
Proof.
  assert (B : snd (validateArgsBasic
                     (Mock.map_args [Mock.pair "myapp" "prod"; JNull]))
              = Resolved tt) by (vm_compute; reflexivity).
  split; [exact B|].
  exact (map_null_entry_throws
           (Mock.map_args [Mock.pair "myapp" "prod"; JNull])
           [Mock.pair "myapp" "prod"; JNull] B eq_refl eq_refl).
Defined.

(** X4. The shape checks of [map], once the basic checks have passed: with
    exactly one of [org] and [space] given, with none of [org], [space] and
    [routes] given, or with a [routes] that is not an array, the action is
    rejected with the message of that case, the request record is left as
    it was and nothing is sent to the platform. *)
Theorem map_shape_rejections {W : Type} (C : Client W) (args : Args)
    (s : St W) :
  snd (validateArgsBasic args) = Resolved tt ->
  (truthy (org args) <> truthy (space args) ->
   mapRoutes C args s = (args, (s, Rejected (Text msg_org_space_both))))
  /\ (truthy (org args) = false -> truthy (space args) = false ->
      truthy (routes args) = false ->
      mapRoutes C args s = (args, (s, Rejected (Text msg_org_space_or_routes))))
  /\ (truthy (org args) = truthy (space args) ->
      truthy (routes args) = true -> Array_isArray (routes args) = false ->
      mapRoutes C args s
      = (args, (s, Rejected (Text msg_routes_not_array_map)))).
Proof.
  intros B.
  assert (V : forall e,
             validateArgsForMapRoutes args = (args, Rejected e) ->
             mapRoutes C args s = (args, (s, Rejected e))).
  { intros e H. rewrite (ValidatorMore.map_rejected C args s e); now rewrite H. }
  destruct (validateArgsBasic args) as [a o] eqn:E.
  pose proof (ValidatorFacts.basic_inv _ _ _ E). subst a. simpl in B. subst o.
  repeat split.
  - intros X. apply V. unfold validateArgsForMapRoutes. rewrite E.
    destruct (truthy (org args)), (truthy (space args)); simpl;
      try reflexivity; contradiction X; reflexivity.
  - intros To Ts Tr. apply V. unfold validateArgsForMapRoutes.
    rewrite E, To, Ts, Tr. reflexivity.
  - intros T Tr A. apply V. unfold validateArgsForMapRoutes.
    rewrite E, <- T, Tr, A.
    destruct (truthy (org args)); reflexivity.
Qed.

Lemma map_shape_rejections_witness :
  snd (validateArgsBasic (Mock.base "myapp")) = Resolved tt
  /\ mapRoutes Mock.client (Mock.base "myapp") (Mock.start Mock.world0)
     = (Mock.base "myapp",
        (Mock.start Mock.world0, Rejected (Text msg_org_space_or_routes))).
Proof.
  assert (B : snd (validateArgsBasic (Mock.base "myapp")) = Resolved tt)
    by (vm_compute; reflexivity).
  split; [exact B|].
  exact (proj1 (proj2 (map_shape_rejections Mock.client (Mock.base "myapp")
                         (Mock.start Mock.world0) B))
               eq_refl eq_refl eq_refl).
Defined.



(** X6. The shape checks of [unmap], once the basic checks have passed: a
    [routes] that is missing or not an array is rejected with the message
    of that case, and an array with an entry that is not a string makes
    the validation throw, so the whole request is rejected with a
    TypeError; in both cases the request record is left as it was and
    nothing is sent to the platform. *)
Theorem unmap_shape_rejections {W : Type} (C : Client W) (args : Args)
    (s : St W) :
  snd (validateArgsBasic args) = Resolved tt ->
  (truthy (routes args) && Array_isArray (routes args) = false ->
   unmapRoutes C args s
   = (args, (s, Rejected (Text msg_routes_not_array_unmap))))
  /\ (forall l,
         routes args = JArr l ->
         existsb (fun r => negb (is_string r)) l = true ->
         unmapRoutes C args s
         = (args, (s, Rejected (TypeError "r.trim is not a function")))).
Proof.
  intros B.
  destruct (validateArgsBasic args) as [a o] eqn:E.
  pose proof (ValidatorFacts.basic_inv _ _ _ E). subst a. simpl in B. subst o.
  split.
  - intros X. apply ValidatorMore.unmap_rejected.
    unfold validateArgsForUnmapRoutes. rewrite E.
    destruct (truthy (routes args)), (Array_isArray (routes args));
      simpl in *; try reflexivity; discriminate X.
  - intros l R T. apply ValidatorMore.unmap_rejected.
    unfold validateArgsForUnmapRoutes. rewrite E, R. simpl.
    now rewrite (ValidatorMore.trim_entries_throw l T).
Qed.

Lemma unmap_shape_rejections_witness :
  snd (validateArgsBasic
         (set_routes (Mock.base "myapp") (JArr [JStr "myapp-prod"; JNum 7])))
  = Resolved tt
  /\ unmapRoutes Mock.client
       (set_routes (Mock.base "myapp") (JArr [JStr "myapp-prod"; JNum 7]))
       (Mock.start Mock.world0)
     = (set_routes (Mock.base "myapp") (JArr [JStr "myapp-prod"; JNum 7]),
        (Mock.start Mock.world0,
         Rejected (TypeError "r.trim is not a function"))).
Proof.
  assert (B : snd (validateArgsBasic
                     (set_routes (Mock.base "myapp")
                                 (JArr [JStr "myapp-prod"; JNum 7])))
              = Resolved tt) by (vm_compute; reflexivity).
  split; [exact B|].
  exact (proj2 (unmap_shape_rejections Mock.client _ (Mock.start Mock.world0) B)
               [JStr "myapp-prod"; JNum 7] eq_refl eq_refl).
Defined.

(** X7. No remote call before validation has passed: when the validation
    of [list], [map] or [unmap] rejects, the action is rejected with the
    same reason, the platform is left in the state it was in and no
    request has been sent. *)
Theorem validation_failure_sends_nothing {W : Type} (C : Client W)
    (args : Args) (s : St W) (e : reason) :
  (snd (validateArgsBasic args) = Rejected e ->
   snd (listRoutes C args s) = (s, Rejected e))
  /\ (snd (validateArgsForMapRoutes args) = Rejected e ->
      snd (mapRoutes C args s) = (s, Rejected e))
  /\ (snd (validateArgsForUnmapRoutes args) = Rejected e ->
      snd (unmapRoutes C args s) = (s, Rejected e)).
Proof.
  repeat split; intros H.
  - now rewrite (ValidatorMore.list_rejected C args s e H).
  - now rewrite (ValidatorMore.map_rejected C args s e H).
  - now rewrite (ValidatorMore.unmap_rejected C args s e H).
Qed.

Lemma validation_failure_sends_nothing_witness :
  snd (validateArgsBasic (Mock.base "  "))
  = Rejected (Text (quoted "appname" ++ " not defined, must be string.")%string)
  /\ snd (listRoutes Mock.client (Mock.base "  ") (Mock.start Mock.world0))
     = (Mock.start Mock.world0,
        Rejected (Text (quoted "appname"
                        ++ " not defined, must be string.")%string)).
Proof.
  assert (B : snd (validateArgsBasic (Mock.base "  "))
              = Rejected (Text (quoted "appname"
                                ++ " not defined, must be string.")%string))
    by (vm_compute; reflexivity).
  split; [exact B|].
  exact (proj1 (validation_failure_sends_nothing Mock.client (Mock.base "  ")
                  (Mock.start Mock.world0) _) B).
Defined.

(* ================================================================= *)
(** ** More on the Mutation Executor and the actions *)

Module ExecutorMore.

Section Client.

Context {W : Type} (C : Client W).

(** The chain for one host name, case by case. *)
Lemma createAndAssociate_created app d sp h s w1 r w2 o :
  cc_routesAdd C d sp h (world s) = (w1, Resolved r) ->
  cc_associateRoute C app (route_guid r) w1 = (w2, o) ->
  createAndAssociate C app d sp h s
  = (mkSt w2 (trace s ++ [RoutesAdd d sp h;
                          AssociateRoute app (route_guid r)]), o).
Proof.
  intros A B.
  unfold createAndAssociate, catch_, then_, Routes_add,
    Apps_associateRoute, send, resolve.
  rewrite A. simpl. rewrite B. now rewrite <- app_assoc.
Qed.

Lemma createAndAssociate_failed app d sp h s w1 e :
  cc_routesAdd C d sp h (world s) = (w1, Rejected e) ->
  host_taken e = false ->
  createAndAssociate C app d sp h s
  = (mkSt w1 (trace s ++ [RoutesAdd d sp h]), Rejected e).
Proof.
  intros A T.
  unfold createAndAssociate, recover, catch_, then_, Routes_add, send,
    resolve, reject.
  rewrite A. unfold host_taken in T.
  destruct (JSON_parse_error_code e) as [[c|]|]; simpl; try reflexivity.
  now rewrite T.
Qed.

Lemma createAndAssociate_lookup app d sp h s w1 e w2 o :
  cc_routesAdd C d sp h (world s) = (w1, Rejected e) ->
  host_taken e = true ->
  cc_getRoutes C ("host:" ++ h)%string w1 = (w2, o) ->
  createAndAssociate C app d sp h s
  = match o with
    | Resolved (r :: _) =>
        let (w3, a) := cc_associateRoute C app (route_guid r) w2 in
        (mkSt w3 (trace s ++ [RoutesAdd d sp h;
                              RoutesGetRoutes ("host:" ++ h)%string;
                              AssociateRoute app (route_guid r)]), a)
    | Resolved [] =>
        (mkSt w2 (trace s ++ [RoutesAdd d sp h;
                              RoutesGetRoutes ("host:" ++ h)%string]),
         Rejected (TypeError "Cannot read property 'metadata'"))
    | Rejected e' =>
        (mkSt w2 (trace s ++ [RoutesAdd d sp h;
                              RoutesGetRoutes ("host:" ++ h)%string]),
         Rejected e')
    end.
Proof.
  intros A T G.
  unfold createAndAssociate, recover, catch_, then_, Routes_add,
    Routes_getRoutes, Apps_associateRoute, send, resolve, reject.
  rewrite A. unfold host_taken in T.
  destruct (JSON_parse_error_code e) as [[c|]|]; try discriminate T.
  rewrite T. simpl in G |- *. rewrite G.
  destruct o as [[|r rest]|e']; simpl; rewrite <- ?app_assoc; try reflexivity.
Qed.

(** The chain sends the creation first and only once, and nothing that is
    not of the add path. *)
Lemma createAndAssociate_sent app d sp h s :
  exists cs,
    trace (fst (createAndAssociate C app d sp h s)) = trace s ++ cs
    /\ filter is_create cs = [RoutesAdd d sp h]
    /\ forallb add_path_call cs = true.
Proof.
  destruct (cc_routesAdd C d sp h (world s)) as [w1 [r|e]] eqn:A.
  - destruct (cc_associateRoute C app (route_guid r) w1) as [w2 o] eqn:B.
    rewrite (createAndAssociate_created _ _ _ _ _ _ _ _ _ A B).
    eexists. split; [reflexivity|]. split; reflexivity.
  - destruct (host_taken e) eqn:T.
    + destruct (cc_getRoutes C ("host:" ++ h)%string w1) as [w2 o] eqn:G.
      rewrite (createAndAssociate_lookup app _ _ _ _ _ _ _ _ A T G).
      destruct o as [[|r rest]|e'].
      * eexists. split; [reflexivity|]. split; reflexivity.
      * destruct (cc_associateRoute C app (route_guid r) w2) as [w3 a].
        eexists. split; [reflexivity|]. split; reflexivity.
      * eexists. split; [reflexivity|]. split; reflexivity.
    + rewrite (createAndAssociate_failed app _ _ _ _ _ _ A T).
      eexists. split; [reflexivity|]. split; reflexivity.
Qed.

End Client.

Section Each.

Context {W X : Type}.
Variable body : X -> Promise W unit.
Variable key : X -> string.
Variable mk : X -> call.
Variables p q : call -> bool.

Hypothesis body_sent :
  forall x s, exists cs,
    trace (fst (body x s)) = trace s ++ cs
    /\ filter p cs = [mk x] /\ forallb q cs = true.

Lemma run_all_sent (l : list X) (s : St W) :
  exists cs,
    trace (fst (Executor.run_all body key l s)) = trace s ++ cs
    /\ filter p cs = map mk l /\ forallb q cs = true.
Proof.
  revert s. induction l as [|x l IH]; intros s; simpl.
  - exists []. now rewrite app_nil_r.
  - destruct (body_sent x s) as (c1 & T1 & F1 & Q1).
    destruct (body x s) as [s1 o]. simpl in T1.
    destruct (IH s1) as (c2 & T2 & F2 & Q2).
    destruct (Executor.run_all body key l s1) as [s2 r]. simpl in *.
    exists (c1 ++ c2). rewrite T2, T1, <- app_assoc.
    split; [reflexivity|].
    rewrite filter_app, F1, F2, forallb_app, Q1, Q2. auto.
Qed.

End Each.

End ExecutorMore.

Module ActionMore.

Section Client.

Context {W : Type} (C : Client W).

Lemma addRoute_run app d sp h s :
  addRoute C app d sp h s
  = (fst (createAndAssociate C app d sp h s),
     Resolved (mkStatus h (is_resolved
                             (snd (createAndAssociate C app d sp h s))))).
Proof.
  exact (ExecutorFacts.settle_run (createAndAssociate C app d sp)
           (fun h => h) h s).
Qed.

Lemma deleteRoute_run app flag r s :
  deleteRoute C app flag r s
  = (fst (rmRoute C app flag r s),
     Resolved (mkStatus (host r) (is_resolved (snd (rmRoute C app flag r s))))).
Proof. exact (ExecutorFacts.settle_run (rmRoute C app flag) host r s). Qed.

(** The lookup of the application and of its routes, case by case. *)
Lemma getAppRoutes_apps_rejected name s w1 e :
  cc_getApps C ("name:" ++ name)%string (world s) = (w1, Rejected e) ->
  getAppRoutes C name s
  = (mkSt w1 (trace s ++ [GetApps ("name:" ++ name)%string]), Rejected e).
Proof.
  intros G. unfold getAppRoutes, then_, Apps_getApps, send. now rewrite G.
Qed.

Lemma getAppRoutes_one name s w1 app w2 o :
  cc_getApps C ("name:" ++ name)%string (world s) = (w1, Resolved [app]) ->
  cc_getAppRoutes C (metadata_guid app) w1 = (w2, o) ->
  getAppRoutes C name s
  = (mkSt w2 (trace s ++ [GetApps ("name:" ++ name)%string;
                          GetAppRoutes (metadata_guid app)]),
     match o with
     | Resolved live => Resolved (live, metadata_guid app)
     | Rejected e => Rejected e
     end).
Proof.
  intros G R.
  unfold getAppRoutes, then_, Apps_getApps, Apps_getAppRoutes, send, resolve.
  rewrite G. simpl. rewrite R. rewrite <- app_assoc.
  destruct o; reflexivity.
Qed.

Lemma getAppRoutes_sent name s :
  exists cs,
    trace (fst (getAppRoutes C name s)) = trace s ++ cs
    /\ forallb is_lookup cs = true.
Proof.
  destruct (cc_getApps C ("name:" ++ name)%string (world s))
    as [w1 [apps|e]] eqn:G.
  - destruct apps as [|app [|b apps]].
    + rewrite (LookupFacts.getAppRoutes_not_one C name s w1 [] G);
        [|discriminate].
      eexists. split; reflexivity.
    + destruct (cc_getAppRoutes C (metadata_guid app) w1) as [w2 o] eqn:R.
      rewrite (getAppRoutes_one _ _ _ _ _ _ G R).
      eexists. split; reflexivity.
    + rewrite (LookupFacts.getAppRoutes_not_one C name s w1 _ G);
        [|discriminate].
      eexists. split; reflexivity.
  - rewrite (getAppRoutes_apps_rejected _ _ _ _ G).
    eexists. split; reflexivity.
Qed.

(** A rejected lookup ends each action. *)
Lemma list_lookup_rejected args s s1 e :
  snd (validateArgsBasic args) = Resolved tt ->
  getAppRoutes C (str_of (appname args)) s = (s1, Rejected e) ->
  listRoutes C args s = (args, (s1, Rejected e)).
Proof.
  intros V G. unfold listRoutes.
  destruct (validateArgsBasic args) as [a o] eqn:B.
  pose proof (ValidatorFacts.basic_inv _ _ _ B). subst a.
  simpl in V. subst o. unfold then_. now rewrite G.
Qed.

Lemma list_lookup_resolved args s s1 live app :
  snd (validateArgsBasic args) = Resolved tt ->
  getAppRoutes C (str_of (appname args)) s = (s1, Resolved (live, app)) ->
  listRoutes C args s = (args, (s1, Resolved (map host live))).
Proof.
  intros V G. unfold listRoutes.
  destruct (validateArgsBasic args) as [a o] eqn:B.
  pose proof (ValidatorFacts.basic_inv _ _ _ B). subst a.
  simpl in V. subst o. unfold then_. now rewrite G.
Qed.

Lemma map_lookup_rejected args args' requested s s1 e :
  validateArgsForMapRoutes args = (args', Resolved requested) ->
  getAppRoutes C (str_of (appname args)) s = (s1, Rejected e) ->
  mapRoutes C args s = (args', (s1, Rejected e)).
Proof.
  intros V G. unfold mapRoutes.
  pose proof (ValidatorFacts.map_appname args) as A.
  rewrite V in *. simpl in A. rewrite A.
  unfold catch_, then_. now rewrite G.
Qed.

Lemma unmap_lookup_rejected args args' requested s s1 e :
  validateArgsForUnmapRoutes args = (args', Resolved requested) ->
  getAppRoutes C (str_of (appname args)) s = (s1, Rejected e) ->
  unmapRoutes C args s = (args', (s1, Rejected e)).
Proof.
  intros V G. unfold unmapRoutes.
  pose proof (ValidatorFacts.unmap_frame args) as A.
  rewrite V in *. simpl in A. subst args'.
  unfold catch_, then_. now rewrite G.
Qed.

(** The identifiers of the differ are those of [own_route_ids]. *)
Lemma differ_ids live name adds dels :
  let ids := filterAddDeleteAndGetIds live name adds dels in
  (domain_guid ids, space_guid ids) = own_route_ids name live.
Proof.
  exact (DifferFacts.fold_guids name adds dels live (mkIds None None adds [])).
Qed.

(** The requests of the add run. *)
Lemma add_run_sent app (ids : Ids) s :
  exists cs,
    trace (fst (Executor.add_run C app ids s)) = trace s ++ cs
    /\ filter is_create cs
       = map (RoutesAdd (domain_guid ids) (space_guid ids)) (routesToAdd ids)
    /\ forallb add_path_call cs = true.
Proof.
  unfold Executor.add_run.
  apply (ExecutorMore.run_all_sent
           (createAndAssociate C app (domain_guid ids) (space_guid ids))
           (fun h => h) (RoutesAdd (domain_guid ids) (space_guid ids))
           is_create add_path_call).
  intros h s'. apply ExecutorMore.createAndAssociate_sent.
Qed.

Lemma delete_run_sent app flag (ids : Ids) s :
  exists cs,
    trace (fst (Executor.delete_run C app flag ids s)) = trace s ++ cs
    /\ forallb delete_path_call cs = true.
Proof.
  unfold Executor.delete_run.
  eexists. split.
  - apply ExecutorFacts.run_all_trace. intros r s'.
    apply ExecutorFacts.rmRoute_trace.
  - induction (routesToDelete ids) as [|r l IH]; simpl; [reflexivity|].
    rewrite IH. destruct (strict_eq_true flag); reflexivity.
Qed.

End Client.

End ActionMore.

(** X8. The add path when the creation succeeds: the created route is
    associated with the application by its guid, nothing else is sent, and
    the entry for the host name has [ok] true exactly when the association
    resolves. *)
Theorem add_created_route {W : Type} (C : Client W)
    (app : string) (d sp : option string) (h : string) (s : St W)
    (w1 w2 : W) (r : Route) (o : outcome unit) :
  cc_routesAdd C d sp h (world s) = (w1, Resolved r) ->
  cc_associateRoute C app (route_guid r) w1 = (w2, o) ->
  addRoute C app d sp h s
  = (mkSt w2 (trace s ++ [RoutesAdd d sp h;
                          AssociateRoute app (route_guid r)]),
     Resolved (mkStatus h (is_resolved o))).
Proof.
  intros A B.
  rewrite ActionMore.addRoute_run,
    (ExecutorMore.createAndAssociate_created C _ _ _ _ _ _ _ _ _ A B).
  reflexivity.
Qed.

Lemma add_created_route_witness :
  cc_routesAdd Mock.client (Some "D") (Some "S") "myapp-stage"
               (world (Scenario.listed Mock.world0))
  = (Mock.mkCF (Mock.cf_routes Mock.world0
                ++ [mkRoute "route-myapp-stage" "myapp-stage" "D" "S"])
               ["g0"; "g1"] [],
     Resolved (mkRoute "route-myapp-stage" "myapp-stage" "D" "S"))
  /\ snd (addRoute Mock.client "app-1" (Some "D") (Some "S") "myapp-stage"
                   (Scenario.listed Mock.world0))
     = Resolved (mkStatus "myapp-stage" true).
Proof.
  assert (A : cc_routesAdd Mock.client (Some "D") (Some "S") "myapp-stage"
                           (world (Scenario.listed Mock.world0))
              = (Mock.mkCF (Mock.cf_routes Mock.world0
                            ++ [mkRoute "route-myapp-stage" "myapp-stage"
                                        "D" "S"])
                           ["g0"; "g1"] [],
                 Resolved (mkRoute "route-myapp-stage" "myapp-stage" "D" "S")))
    by (vm_compute; reflexivity).
  split; [exact A|].
  rewrite (add_created_route Mock.client "app-1" _ _ _ _ _ _ _ _ A eq_refl).
  reflexivity.
Defined.

(** X9. The add path when the creation fails for another reason than the
    host being taken (another error code, no error code, or a reason that
    is not JSON): the host is neither looked up nor associated, the
    creation is the only request, and the entry has [ok] false. *)
Theorem add_other_failure {W : Type} (C : Client W)
    (app : string) (d sp : option string) (h : string) (s : St W)
    (w1 : W) (e : reason) :
  cc_routesAdd C d sp h (world s) = (w1, Rejected e) ->
  host_taken e = false ->
  addRoute C app d sp h s
  = (mkSt w1 (trace s ++ [RoutesAdd d sp h]), Resolved (mkStatus h false)).
Proof.
  intros A T.
  rewrite ActionMore.addRoute_run,
    (ExecutorMore.createAndAssociate_failed C app _ _ _ _ _ _ A T).
  reflexivity.
Qed.

Lemma add_other_failure_witness :
  cc_routesAdd Mock.client None None "myapp-stage"
               (world (Scenario.listed Mock.world0))
  = (Mock.world0, Rejected (JsonError (Some "CF-RouteInvalid") "no domain"))
  /\ host_taken (JsonError (Some "CF-RouteInvalid") "no domain") = false
  /\ addRoute Mock.client "app-1" None None "myapp-stage"
              (Scenario.listed Mock.world0)
     = (mkSt Mock.world0
             [GetApps "name:myapp"; GetAppRoutes "app-1";
              RoutesAdd None None "myapp-stage"],
        Resolved (mkStatus "myapp-stage" false)).
Proof.
  assert (A : cc_routesAdd Mock.client None None "myapp-stage"
                           (world (Scenario.listed Mock.world0))
              = (Mock.world0,
                 Rejected (JsonError (Some "CF-RouteInvalid") "no domain")))
    by (vm_compute; reflexivity).
  split; [exact A|]. split; [reflexivity|].
  exact (add_other_failure Mock.client "app-1" None None "myapp-stage"
           (Scenario.listed Mock.world0) _ _ A eq_refl).
Defined.

(** X10. The add path when the host is taken but the lookup by host gives
    no record to associate, because it is rejected or because it finds no
    route: no association is sent and the entry has [ok] false. *)
Theorem add_recovery_without_record {W : Type} (C : Client W)
    (app : string) (d sp : option string) (h : string) (s : St W)
    (w1 w2 : W) (e : reason) (o : outcome (list Route)) :
  cc_routesAdd C d sp h (world s) = (w1, Rejected e) ->
  host_taken e = true ->
  cc_getRoutes C ("host:" ++ h)%string w1 = (w2, o) ->
  o = Resolved [] \/ (exists e', o = Rejected e') ->
  addRoute C app d sp h s
  = (mkSt w2 (trace s ++ [RoutesAdd d sp h;
                          RoutesGetRoutes ("host:" ++ h)%string]),
     Resolved (mkStatus h false)).
Proof.
  intros A T G O.
  rewrite ActionMore.addRoute_run,
    (ExecutorMore.createAndAssociate_lookup C app _ _ _ _ _ _ _ _ A T G).
  destruct O as [-> | [e' ->]]; reflexivity.
Qed.

Lemma add_recovery_without_record_witness :
  cc_routesAdd Faulty.racy (Some "D") (Some "S") "acme-dev"
               (world (Scenario.listed Mock.world0))
  = (Mock.world0,
     Rejected (JsonError (Some "CF-RouteHostTaken") "host is taken"))
  /\ cc_getRoutes Faulty.racy "host:acme-dev" Mock.world0
     = (Mock.world0, Resolved [])
  /\ addRoute Faulty.racy "app-1" (Some "D") (Some "S") "acme-dev"
              (Scenario.listed Mock.world0)
     = (mkSt Mock.world0
             [GetApps "name:myapp"; GetAppRoutes "app-1";
              RoutesAdd (Some "D") (Some "S") "acme-dev";
              RoutesGetRoutes "host:acme-dev"],
        Resolved (mkStatus "acme-dev" false)).
Proof.
  assert (A : cc_routesAdd Faulty.racy (Some "D") (Some "S") "acme-dev"
                           (world (Scenario.listed Mock.world0))
              = (Mock.world0,
                 Rejected (JsonError (Some "CF-RouteHostTaken")
                                     "host is taken")))
    by (vm_compute; reflexivity).
  assert (G : cc_getRoutes Faulty.racy ("host:" ++ "acme-dev")%string
                           Mock.world0
              = (Mock.world0, Resolved [])) by reflexivity.
  split; [exact A|]. split; [exact G|].
  exact (add_recovery_without_record Faulty.racy "app-1" (Some "D") (Some "S")
           "acme-dev" (Scenario.listed Mock.world0) _ _ _ _
           A eq_refl G (or_introl eq_refl)).
Defined.

(** X11. What [map] creates: once validation and the lookup have passed,
    the action sends exactly one creation per requested name that is not
    a host of the live list, in the order of the request and without
    retry, each with the domain and space of the last live route whose
    host is the application name, or with both undefined when there is no
    such route; every other request it then sends is a lookup by host or
    an association. *)
Theorem map_creates_once {W : Type} (C : Client W) (args args' : Args)
    (requested : StrSet.t) (s s1 : St W) (live : list Route) (app : string) :
  validateArgsForMapRoutes args = (args', Resolved requested) ->
  getAppRoutes C (str_of (appname args)) s = (s1, Resolved (live, app)) ->
  exists s2 status cs,
    mapRoutes C args s = (args', (s2, Resolved status))
    /\ sent s1 s2 cs
    /\ filter is_create cs
       = map (RoutesAdd (fst (own_route_ids (str_of (appname args)) live))
                        (snd (own_route_ids (str_of (appname args)) live)))
             (filter (fun h => negb (StrSet.has (map host live) h)) requested)
    /\ forallb add_path_call cs = true.
Proof.
  intros V G.
  rewrite (ActionFacts.mapRoutes_run C _ _ _ _ _ _ _ V G).
  set (ids := filterAddDeleteAndGetIds live (str_of (appname args))
                requested []).
  destruct (ActionMore.add_run_sent C app ids s1) as (cs & T & F & Q).
  exists (fst (Executor.add_run C app ids s1)), 
    (report true requested (snd (Executor.add_run C app ids s1))), cs.
  split; [reflexivity|]. split; [exact T|]. split; [|exact Q].
  rewrite F. unfold ids.
  rewrite DifferFacts.routesToAdd_eq,
    <- (ActionMore.differ_ids live (str_of (appname args)) requested []).
  reflexivity.
Qed.

Lemma map_creates_once_witness :
  validateArgsForMapRoutes Scenario.map_two
  = (Scenario.map_two, Resolved ["myapp-stage"; "myapp-prod"])
  /\ getAppRoutes Mock.client (str_of (appname Scenario.map_two))
                  (Mock.start Mock.world0)
     = (Scenario.listed Mock.world0,
        Resolved ([Mock.r_myapp; Mock.r_prod], "app-1"))
  /\ exists s2 status cs,
      mapRoutes Mock.client Scenario.map_two (Mock.start Mock.world0)
      = (Scenario.map_two, (s2, Resolved status))
      /\ sent (Scenario.listed Mock.world0) s2 cs
      /\ filter is_create cs = [RoutesAdd (Some "D") (Some "S") "myapp-stage"].
Proof.
  assert (V : validateArgsForMapRoutes Scenario.map_two
              = (Scenario.map_two, Resolved ["myapp-stage"; "myapp-prod"]))
    by (vm_compute; reflexivity).
  assert (G : getAppRoutes Mock.client (str_of (appname Scenario.map_two))
                           (Mock.start Mock.world0)
              = (Scenario.listed Mock.world0,
                 Resolved ([Mock.r_myapp; Mock.r_prod], "app-1")))
    by (vm_compute; reflexivity).
  split; [exact V|]. split; [exact G|].
  destruct (map_creates_once Mock.client _ _ _ _ _ _ _ V G)
    as (s2 & status & cs & R & S & F & _).
  exists s2, status, cs. split; [exact R|]. split; [exact S|]. exact F.
Defined.

(** X12. What each action never sends.  Whatever the request and the
    platform, [list] only sends the two lookups; [map] only lookups and
    requests of the add path (no removal of an association, no deletion of
    a route); [unmap] only lookups and requests of the delete path (no
    creation, no association). *)
Theorem actions_request_kinds {W : Type} (C : Client W) (args : Args)
    (s : St W) :
  (exists cs, sent s (fst (snd (listRoutes C args s))) cs
              /\ forallb is_lookup cs = true)
  /\ (exists cs, sent s (fst (snd (mapRoutes C args s))) cs
                 /\ forallb (fun c => is_lookup c || add_path_call c) cs
                    = true)
  /\ (exists cs, sent s (fst (snd (unmapRoutes C args s))) cs
                 /\ forallb (fun c => is_lookup c || delete_path_call c) cs
                    = true).
Proof.
  assert (Nil : forall p : call -> bool,
             sent s s [] /\ forallb p [] = true).
  { intros p. unfold sent. now rewrite app_nil_r. }
  assert (Weak : forall (p q : call -> bool) cs,
             forallb p cs = true -> forallb (fun c => p c || q c) cs = true).
  { intros p q cs H. rewrite forallb_forall in *. intros c Hc.
    now rewrite (H c Hc). }
  assert (Weak' : forall (p q : call -> bool) cs,
             forallb q cs = true -> forallb (fun c => p c || q c) cs = true).
  { intros p q cs H. rewrite forallb_forall in *. intros c Hc.
    rewrite (H c Hc). apply orb_true_r. }
  repeat split.
  - destruct (snd (validateArgsBasic args)) as [[]|e] eqn:V.
    + destruct (ActionMore.getAppRoutes_sent C (str_of (appname args)) s)
        as (cs & T & L).
      destruct (getAppRoutes C (str_of (appname args)) s)
        as [s1 [[live app]|e]] eqn:G.
      * rewrite (ActionMore.list_lookup_resolved C _ _ _ _ _ V G).
        now exists cs.
      * rewrite (ActionMore.list_lookup_rejected C _ _ _ _ V G).
        now exists cs.
    + rewrite (ValidatorMore.list_rejected C args s e V). exists []. apply Nil.
  - destruct (validateArgsForMapRoutes args) as [args' [requested|e]] eqn:V.
    + destruct (ActionMore.getAppRoutes_sent C (str_of (appname args)) s)
        as (cs & T & L).
      destruct (getAppRoutes C (str_of (appname args)) s)
        as [s1 [[live app]|e]] eqn:G.
      * rewrite (ActionFacts.mapRoutes_run C _ _ _ _ _ _ _ V G).
        match goal with
        | |- context [Executor.add_run C app ?i s1] =>
            destruct (ActionMore.add_run_sent C app i s1) as (c2 & T2 & _ & Q)
        end.
        exists (cs ++ c2). unfold sent. simpl in *.
        rewrite T2, T, <- app_assoc. split; [reflexivity|].
        rewrite forallb_app, (Weak _ _ _ L), (Weak' _ _ _ Q). reflexivity.
      * rewrite (ActionMore.map_lookup_rejected C _ _ _ _ _ _ V G).
        exists cs. split; [exact T | now apply Weak].
    + rewrite (ValidatorMore.map_rejected C args s e); rewrite V;
        [|reflexivity]. exists []. apply Nil.
  - destruct (validateArgsForUnmapRoutes args) as [args' [requested|e]] eqn:V.
    + destruct (ActionMore.getAppRoutes_sent C (str_of (appname args)) s)
        as (cs & T & L).
      destruct (getAppRoutes C (str_of (appname args)) s)
        as [s1 [[live app]|e]] eqn:G.
      * rewrite (ActionFacts.unmapRoutes_run C _ _ _ _ _ _ _ V G).
        match goal with
        | |- context [Executor.delete_run C app ?f ?i s1] =>
            destruct (ActionMore.delete_run_sent C app f i s1)
              as (c2 & T2 & Q)
        end.
        exists (cs ++ c2). unfold sent. simpl in *.
        rewrite T2, T, <- app_assoc. split; [reflexivity|].
        rewrite forallb_app, (Weak _ _ _ L), (Weak' _ _ _ Q). reflexivity.
      * rewrite (ActionMore.unmap_lookup_rejected C _ _ _ _ _ _ V G).
        exists cs. split; [exact T | now apply Weak].
    + rewrite (ValidatorMore.unmap_rejected C args s e);
        [|now rewrite V]. exists []. apply Nil.
Qed.

Module ReporterMore.

Lemma filter_none {A} (f : A -> bool) (l : list A) :
  (forall x, In x l -> f x = false) -> filter f l = [].
Proof.
  induction l as [|a l IH]; simpl; intros H; [reflexivity|].
  rewrite (H a (or_introl eq_refl)). apply IH. auto.
Qed.

Lemma filter_all {A} (f : A -> bool) (l : list A) :
  (forall x, In x l -> f x = true) -> filter f l = l.
Proof.
  induction l as [|a l IH]; simpl; intros H; [reflexivity|].
  rewrite (H a (or_introl eq_refl)). f_equal. apply IH. auto.
Qed.

(** With nothing run by the executor, every requested name is a
    leftover. *)
Lemma report_nothing_run (ok : bool) (requested : StrSet.t) :
  report ok requested [] = map (fun h => mkStatus h ok) requested.
Proof.
  rewrite ReporterFacts.report_eq. unfold leftovers. simpl.
  now rewrite filter_all.
Qed.

End ReporterMore.

(** X13. Mapping what is already mapped: when every requested name is a
    host of the live list, [map] sends nothing after the lookup, and
    resolves with one entry per requested name, in the order of the
    request, each with [ok] true. *)
Theorem map_all_live {W : Type} (C : Client W) (args args' : Args)
    (requested : StrSet.t) (s s1 : St W) (live : list Route) (app : string) :
  validateArgsForMapRoutes args = (args', Resolved requested) ->
  getAppRoutes C (str_of (appname args)) s = (s1, Resolved (live, app)) ->
  (forall h, In h requested -> In h (map host live)) ->
  mapRoutes C args s
  = (args', (s1, Resolved (map (fun h => mkStatus h true) requested))).
Proof.
  intros V G L.
  rewrite (ActionFacts.mapRoutes_run C _ _ _ _ _ _ _ V G).
  unfold Executor.add_run. rewrite DifferFacts.routesToAdd_eq.
  rewrite ReporterMore.filter_none.
  - simpl. now rewrite ReporterMore.report_nothing_run.
  - intros h Hh. apply negb_false_iff, StrSetFacts.has_In. auto.
Qed.

Lemma map_all_live_witness :
  validateArgsForMapRoutes (Mock.map_args [Mock.pair "myapp" "prod"])
  = (Mock.map_args [Mock.pair "myapp" "prod"], Resolved ["myapp-prod"])
  /\ mapRoutes Mock.client (Mock.map_args [Mock.pair "myapp" "prod"])
               (Mock.start Mock.world0)
     = (Mock.map_args [Mock.pair "myapp" "prod"],
        (Scenario.listed Mock.world0,
         Resolved [mkStatus "myapp-prod" true])).
Proof.
  assert (V : validateArgsForMapRoutes (Mock.map_args [Mock.pair "myapp" "prod"])
              = (Mock.map_args [Mock.pair "myapp" "prod"],
                 Resolved ["myapp-prod"]))
    by (vm_compute; reflexivity).
  assert (G : getAppRoutes Mock.client
                (str_of (appname (Mock.map_args [Mock.pair "myapp" "prod"])))
                (Mock.start Mock.world0)
              = (Scenario.listed Mock.world0,
                 Resolved ([Mock.r_myapp; Mock.r_prod], "app-1")))
    by (vm_compute; reflexivity).
  split; [exact V|].
  apply (map_all_live Mock.client _ _ _ _ _ _ _ V G).
  intros h [<- | []]. simpl. auto.
Defined.

(** X14. Unmapping what is not mapped: when no requested name is a host
    of the live list, [unmap] sends nothing after the lookup, and resolves
    with one entry per requested name, in the order of the request, each
    with [ok] false. *)
Theorem unmap_none_live {W : Type} (C : Client W) (args args' : Args)
    (requested : StrSet.t) (s s1 : St W) (live : list Route) (app : string) :
  validateArgsForUnmapRoutes args = (args', Resolved requested) ->
  getAppRoutes C (str_of (appname args)) s = (s1, Resolved (live, app)) ->
  (forall h, In h requested -> ~ In h (map host live)) ->
  unmapRoutes C args s
  = (args', (s1, Resolved (map (fun h => mkStatus h false) requested))).
Proof.
  intros V G L.
  rewrite (ActionFacts.unmapRoutes_run C _ _ _ _ _ _ _ V G).
  unfold Executor.delete_run. rewrite DifferFacts.routesToDelete_eq.
  rewrite ReporterMore.filter_none.
  - simpl. now rewrite ReporterMore.report_nothing_run.
  - intros r Hr. apply StrSetFacts.has_false. intros Hin.
    apply (L _ Hin). now apply in_map.
Qed.

Lemma unmap_none_live_witness :
  validateArgsForUnmapRoutes (Mock.unmap_args ["nope"] JUndefined)
  = (Mock.unmap_args ["nope"] JUndefined, Resolved ["nope"])
  /\ unmapRoutes Mock.client (Mock.unmap_args ["nope"] JUndefined)
                 (Mock.start Mock.world0)
     = (Mock.unmap_args ["nope"] JUndefined,
        (Scenario.listed Mock.world0, Resolved [mkStatus "nope" false])).
Proof.
  assert (V : validateArgsForUnmapRoutes (Mock.unmap_args ["nope"] JUndefined)
              = (Mock.unmap_args ["nope"] JUndefined, Resolved ["nope"]))
    by (vm_compute; reflexivity).
  assert (G : getAppRoutes Mock.client
                (str_of (appname (Mock.unmap_args ["nope"] JUndefined)))
                (Mock.start Mock.world0)
              = (Scenario.listed Mock.world0,
                 Resolved ([Mock.r_myapp; Mock.r_prod], "app-1")))
    by (vm_compute; reflexivity).
  split; [exact V|].
  apply (unmap_none_live Mock.client _ _ _ _ _ _ _ V G).
  intros h [<- | []]. simpl. intros [H | [H | []]]; discriminate H.
Defined.

(** X15. A lookup that the platform refuses ends the action: when the
    lookup of the application is rejected, or it finds one application
    and the listing of its routes is rejected, each of [list], [map] and
    [unmap], once its validation has passed, is rejected with the reason
    the platform gave, after the lookups alone. *)
Theorem lookup_error_propagates {W : Type} (C : Client W) (args : Args)
    (s : St W) (w1 : W) (e : reason) :
  cc_getApps C ("name:" ++ str_of (appname args))%string (world s)
  = (w1, Rejected e)
  \/ (exists w0 app,
         cc_getApps C ("name:" ++ str_of (appname args))%string (world s)
         = (w0, Resolved [app])
         /\ cc_getAppRoutes C (metadata_guid app) w0 = (w1, Rejected e)) ->
  exists cs,
    forallb is_lookup cs = true
    /\ (snd (validateArgsBasic args) = Resolved tt ->
        listRoutes C args s = (args, (mkSt w1 (trace s ++ cs), Rejected e)))
    /\ (forall args' requested,
           validateArgsForMapRoutes args = (args', Resolved requested) ->
           mapRoutes C args s = (args', (mkSt w1 (trace s ++ cs), Rejected e)))
    /\ (forall args' requested,
           validateArgsForUnmapRoutes args = (args', Resolved requested) ->
           unmapRoutes C args s
           = (args', (mkSt w1 (trace s ++ cs), Rejected e))).
Proof.
  intros H.
  assert (G : exists cs,
             forallb is_lookup cs = true
             /\ getAppRoutes C (str_of (appname args)) s
                = (mkSt w1 (trace s ++ cs), Rejected e)).
  { destruct H as [G | (w0 & app & G & R)].
    - eexists. split;
        [|exact (ActionMore.getAppRoutes_apps_rejected C _ _ _ _ G)].
      reflexivity.
    - eexists. split;
        [|exact (ActionMore.getAppRoutes_one C _ _ _ _ _ _ G R)].
      reflexivity. }
  destruct G as (cs & L & G). exists cs. split; [exact L|].
  repeat split.
  - intros V. exact (ActionMore.list_lookup_rejected C _ _ _ _ V G).
  - intros args' requested V.
    exact (ActionMore.map_lookup_rejected C _ _ _ _ _ _ V G).
  - intros args' requested V.
    exact (ActionMore.unmap_lookup_rejected C _ _ _ _ _ _ V G).
Qed.

Lemma lookup_error_propagates_witness :
  cc_getApps Faulty.listing_down "name:myapp" Mock.world0
  = (Mock.world0, Resolved [mkApp "app-1"])
  /\ cc_getAppRoutes Faulty.listing_down "app-1" Mock.world0
     = (Mock.world0, Rejected (Text "503"))
  /\ snd (validateArgsBasic (Mock.base "myapp")) = Resolved tt
  /\ exists cs,
      listRoutes Faulty.listing_down (Mock.base "myapp")
                 (Mock.start Mock.world0)
      = (Mock.base "myapp",
         (mkSt Mock.world0 (trace (Mock.start Mock.world0) ++ cs),
          Rejected (Text "503"))).
Proof.
  assert (G : cc_getApps Faulty.listing_down
                ("name:" ++ str_of (appname (Mock.base "myapp")))%string
                (world (Mock.start Mock.world0))
              = (Mock.world0, Resolved [mkApp "app-1"])) by reflexivity.
  assert (R : cc_getAppRoutes Faulty.listing_down
                (metadata_guid (mkApp "app-1")) Mock.world0
              = (Mock.world0, Rejected (Text "503"))) by reflexivity.
  assert (B : snd (validateArgsBasic (Mock.base "myapp")) = Resolved tt)
    by (vm_compute; reflexivity).
  split; [exact G|]. split; [exact R|]. split; [exact B|].
  destruct (lookup_error_propagates Faulty.listing_down (Mock.base "myapp")
              (Mock.start Mock.world0) Mock.world0 (Text "503")
              (or_intror (ex_intro _ Mock.world0
                            (ex_intro _ (mkApp "app-1") (conj G R)))))
    as (cs & _ & HL & _).
  exists cs. exact (HL B).
Defined.

(** X16. What [list] returns: when the basic checks pass, the lookup finds
    exactly one application and its routes are listed, the action
    resolves with the hosts of those routes in the order of the listing,
    after these two requests, and leaves the request record as it was. *)
Theorem list_returns_live_hosts {W : Type} (C : Client W) (args : Args)
    (s : St W) (w1 w2 : W) (app : App) (live : list Route) :
  snd (validateArgsBasic args) = Resolved tt ->
  cc_getApps C ("name:" ++ str_of (appname args))%string (world s)
  = (w1, Resolved [app]) ->
  cc_getAppRoutes C (metadata_guid app) w1 = (w2, Resolved live) ->
  listRoutes C args s
  = (args,
     (mkSt w2 (trace s ++ [GetApps ("name:" ++ str_of (appname args))%string;
                           GetAppRoutes (metadata_guid app)]),
      Resolved (map host live))).
Proof.
  intros V G R.
  exact (ActionMore.list_lookup_resolved C _ _ _ _ _ V
           (ActionMore.getAppRoutes_one C _ _ _ _ _ _ G R)).
Qed.

Lemma list_returns_live_hosts_witness :
  snd (validateArgsBasic (Mock.base "myapp")) = Resolved tt
  /\ listRoutes Mock.client (Mock.base "myapp") (Mock.start Mock.world0)
     = (Mock.base "myapp",
        (Scenario.listed Mock.world0, Resolved ["myapp"; "myapp-prod"])).
Proof.
  assert (B : snd (validateArgsBasic (Mock.base "myapp")) = Resolved tt)
    by (vm_compute; reflexivity).
  split; [exact B|].
  exact (list_returns_live_hosts Mock.client (Mock.base "myapp")
           (Mock.start Mock.world0) Mock.world0 Mock.world0 (mkApp "app-1")
           [Mock.r_myapp; Mock.r_prod] B eq_refl eq_refl).
Defined.

(** X17. The layout of the status list.  On [map] it is the executor's
    entries for the requested names that were not live, in the order of
    the request, followed by an entry with [ok] true for each requested
    name that was live, in the order of the request.  On [unmap] it is the
    executor's entries for the matching live records, in the order of the
    live list, followed by an entry with [ok] false for each requested
    name that was not live, in the order of the request. *)
Theorem status_layout {W : Type} (C : Client W) :
  (forall args s args' requested s1 live app,
      validateArgsForMapRoutes args = (args', Resolved requested) ->
      getAppRoutes C (str_of (appname args)) s = (s1, Resolved (live, app)) ->
      exists s2 result,
        mapRoutes C args s
        = (args',
           (s2, Resolved
                  (result
                   ++ map (fun h => mkStatus h true)
                          (filter (StrSet.has (map host live)) requested))))
        /\ map route result
           = filter (fun h => negb (StrSet.has (map host live) h)) requested)
  /\ (forall args s args' requested s1 live app,
         validateArgsForUnmapRoutes args = (args', Resolved requested) ->
         getAppRoutes C (str_of (appname args)) s
         = (s1, Resolved (live, app)) ->
         exists s2 result,
           unmapRoutes C args s
           = (args',
              (s2, Resolved
                     (result
                      ++ map (fun h => mkStatus h false)
                             (filter
                                (fun h => negb (StrSet.has (map host live) h))
                                requested))))
           /\ map route result
              = map host
                    (filter (fun r => StrSet.has requested (host r)) live)).
Proof.
  split.
  - intros args s args' requested s1 live app V G.
    rewrite (ActionFacts.mapRoutes_run C _ _ _ _ _ _ _ V G).
    eexists. eexists. split; [|apply (ActionFacts.add_run_routes C)].
    rewrite ReporterFacts.report_eq. unfold leftovers.
    rewrite ActionFacts.add_run_routes.
    rewrite (filter_ext_in
               (fun h =>
                  negb (StrSet.has
                          (filter
                             (fun h0 => negb (StrSet.has (map host live) h0))
                             requested) h))
               (StrSet.has (map host live)) requested); [reflexivity|].
    intros h Hh.
    rewrite ReporterFacts.has_fresh by assumption. apply negb_involutive.
  - intros args s args' requested s1 live app V G.
    rewrite (ActionFacts.unmapRoutes_run C _ _ _ _ _ _ _ V G).
    eexists. eexists. split; [|apply (ActionFacts.delete_run_routes C)].
    rewrite ReporterFacts.report_eq. unfold leftovers.
    rewrite ActionFacts.delete_run_routes.
    rewrite (filter_ext_in
               (fun h =>
                  negb (StrSet.has
                          (map host
                             (filter (fun r => StrSet.has requested (host r))
                                     live)) h))
               (fun h => negb (StrSet.has (map host live) h)) requested);
      [reflexivity|].
    intros h Hh. now rewrite ReporterFacts.has_matched.
Qed.

Lemma status_layout_witness :
  validateArgsForMapRoutes
    (Mock.map_args [Mock.pair "myapp" "prod"; Mock.pair "myapp" "stage"])
  = (Mock.map_args [Mock.pair "myapp" "prod"; Mock.pair "myapp" "stage"],
     Resolved ["myapp-prod"; "myapp-stage"])
  /\ exists s2 result,
      mapRoutes Mock.client
        (Mock.map_args [Mock.pair "myapp" "prod"; Mock.pair "myapp" "stage"])
        (Mock.start Mock.world0)
      = (Mock.map_args [Mock.pair "myapp" "prod"; Mock.pair "myapp" "stage"],
         (s2, Resolved (result ++ [mkStatus "myapp-prod" true])))
      /\ map route result = ["myapp-stage"].
Proof.
  assert (V : validateArgsForMapRoutes
                (Mock.map_args [Mock.pair "myapp" "prod";
                                Mock.pair "myapp" "stage"])
              = (Mock.map_args [Mock.pair "myapp" "prod";
                                Mock.pair "myapp" "stage"],
                 Resolved ["myapp-prod"; "myapp-stage"]))
    by (vm_compute; reflexivity).
  assert (G : getAppRoutes Mock.client
                (str_of (appname (Mock.map_args [Mock.pair "myapp" "prod";
                                                 Mock.pair "myapp" "stage"])))
                (Mock.start Mock.world0)
              = (Scenario.listed Mock.world0,
                 Resolved ([Mock.r_myapp; Mock.r_prod], "app-1")))
    by (vm_compute; reflexivity).
  split; [exact V|].
  exact (proj1 (status_layout Mock.client) _ _ _ _ _ _ _ V G).
Defined.

(** X18. The entry of the delete path.  Without destroy intent the route
    record is unassociated with one request, and the entry has [ok] true
    when that request resolves or is rejected with EMPTY_BODY (the answer
    204 without a body), false on any other rejection.  With
    [deleteAfterUnmap] true the route is removed with one request and the
    entry has [ok] true exactly when it resolves. *)
Theorem delete_entry_outcome {W : Type} (C : Client W) (app : string)
    (flag : jsval) (r : Route) (s : St W) (w1 : W) (o : outcome unit) :
  (strict_eq_true flag = false ->
   cc_REST_delete C app (route_guid r) (world s) = (w1, o) ->
   deleteRoute C app flag r s
   = (mkSt w1 (trace s ++ [DeleteAppRoute app (route_guid r)]),
      Resolved (mkStatus (host r) (unassociated o))))
  /\ (strict_eq_true flag = true ->
      cc_routesRemove C (route_guid r) (world s) = (w1, o) ->
      deleteRoute C app flag r s
      = (mkSt w1 (trace s ++ [RoutesRemove (route_guid r)]),
         Resolved (mkStatus (host r) (is_resolved o)))).
Proof.
  split; intros F D; rewrite ActionMore.deleteRoute_run;
    unfold rmRoute; rewrite F.
  - unfold Apps_unassociateRoute, catch_, send. rewrite D.
    destruct o as [[]|[body| |]]; simpl; try reflexivity.
    destruct (body =? "EMPTY_BODY"); reflexivity.
  - unfold Routes_remove, send. rewrite D. reflexivity.
Qed.

Lemma delete_entry_outcome_witness :
  strict_eq_true JUndefined = false
  /\ cc_REST_delete Mock.client "app-1" "g1"
                    (world (Scenario.listed Mock.world0))
     = (Mock.mkCF (Mock.cf_routes Mock.world0) ["g0"] [],
        Rejected (Text "EMPTY_BODY"))
  /\ snd (deleteRoute Mock.client "app-1" JUndefined Mock.r_prod
                      (Scenario.listed Mock.world0))
     = Resolved (mkStatus "myapp-prod" true).
Proof.
  assert (D : cc_REST_delete Mock.client "app-1" (route_guid Mock.r_prod)
                             (world (Scenario.listed Mock.world0))
              = (Mock.mkCF (Mock.cf_routes Mock.world0) ["g0"] [],
                 Rejected (Text "EMPTY_BODY")))
    by (vm_compute; reflexivity).
  split; [reflexivity|]. split; [exact D|].
  rewrite (proj1 (delete_entry_outcome Mock.client "app-1" JUndefined
                    Mock.r_prod (Scenario.listed Mock.world0) _ _)
                 eq_refl D).
  reflexivity.
Defined.



(** X20. The requests of [login].  Whatever the request and the platform,
    [login] either sends nothing, or asks the cloud controller of the
    endpoint for its information and is rejected with the reason of that
    request, or asks it and then sends the user name and the password
    once, to the authorization endpoint the controller has named, and
    ends with the outcome of that login. *)
Theorem login_requests {W : Type} (U : Login.UaaClient W)
    (args : Login.LoginArgs) (s : W * list Login.uaa_call) :
  (exists e, Login.login U args s = (s, Rejected e))
  \/ (exists endpoint w1 e,
         Login.login_endpoint args = JStr endpoint
         /\ Login.cc_getInfo U endpoint (fst s) = (w1, Rejected e)
         /\ Login.login U args s
            = ((w1, snd s ++ [Login.GetInfo endpoint]), Rejected e))
  \/ (exists endpoint w1 auth pass w2 o,
         Login.login_endpoint args = JStr endpoint
         /\ Login.password args = JStr pass
         /\ Login.cc_getInfo U endpoint (fst s) = (w1, Resolved auth)
         /\ Login.uaa_login U auth (Login.username args) pass w1 = (w2, o)
         /\ Login.login U args s
            = ((w2, snd s ++ [Login.GetInfo endpoint;
                              Login.UaaLogin auth (Login.username args) pass]),
               o)).
Proof.
  unfold Login.login.
  destruct (blank_or_not_string (Login.login_endpoint args)) eqn:E;
    [left; eauto|].
  destruct (negb (truthy (Login.username args))
            || negb (is_string (Login.password args))) eqn:Un;
    [left; eauto|].
  destruct (negb (truthy (Login.password args))
            || negb (is_string (Login.password args))) eqn:Pw;
    [left; eauto|].
  right.
  destruct (Login.login_endpoint args) as [| | | |endpoint| |] eqn:Ep;
    try discriminate E.
  destruct (Login.password args) as [| | | |pass| |] eqn:Pa;
    simpl in Un; rewrite ?orb_true_r in Un; try discriminate Un.
  simpl.
  destruct (Login.cc_getInfo U endpoint (fst s)) as [w1 [auth|e]] eqn:G.
  - right.
    destruct (Login.uaa_login U auth (Login.username args) pass w1)
      as [w2 o] eqn:L.
    exists endpoint, w1, auth, pass, w2, o. auto.
  - left. exists endpoint, w1, e. auto.
Qed.

Module RevalidateFacts.

Lemma Array_filter_app {A} (f : A -> outcome bool) (a b : list A) :
  Array_filter f (a ++ b)
  = match Array_filter f a with
    | Rejected e => Rejected e
    | Resolved ka =>
        match Array_filter f b with
        | Rejected e => Rejected e
        | Resolved kb => Resolved (ka ++ kb)
        end
    end.
Proof.
  induction a as [|x a IH]; simpl.
  - destruct (Array_filter f b); reflexivity.
  - destruct (f x) as [keep|e]; [|reflexivity]. rewrite IH.
    destruct (Array_filter f a) as [ka|e]; [|reflexivity].
    destruct (Array_filter f b) as [kb|e]; [|reflexivity].
    destruct keep; reflexivity.
Qed.

(** Adding again what a set already holds changes nothing. *)
Lemma fold_add_present (l : list string) (s : StrSet.t) :
  (forall h, In h l -> In h s) -> fold_left StrSet.add l s = s.
Proof.
  revert s. induction l as [|x l IH]; intros s H; simpl; [reflexivity|].
  assert (E : StrSet.add s x = s).
  { unfold StrSet.add.
    now rewrite (proj2 (StrSetFacts.has_In s x) (H x (or_introl eq_refl))). }
  rewrite E. apply IH. intros h Hh. apply H. now right.
Qed.

Lemma of_list_twice (a b : list string) :
  StrSet.of_list (a ++ b ++ b) = StrSet.of_list (a ++ b).
Proof.
  unfold StrSet.of_list. rewrite app_assoc, fold_left_app.
  apply fold_add_present. intros h Hh.
  apply StrSetFacts.fold_add_In. right. apply in_or_app. now right.
Qed.

(** The names of a [routes] array with its last entry repeated. *)
Lemma candidate_names_repeat (l : list jsval) (p : jsval) :
  match candidate_names (l ++ [p]), candidate_names ((l ++ [p]) ++ [p]) with
  | Resolved n1, Resolved n2 => StrSet.of_list n2 = StrSet.of_list n1
  | Rejected e1, Rejected e2 => e1 = e2
  | _, _ => False
  end.
Proof.
  unfold candidate_names. rewrite <- app_assoc, !Array_filter_app.
  destruct (Array_filter valid_route_entry l) as [kl|e]; [|reflexivity].
  simpl. destruct (valid_route_entry p) as [[|]|e]; simpl;
    try reflexivity.
  rewrite !map_app, !filter_app.
  simpl map.
  set (n := filter (fun r => String.length r <=? 63)%nat [org_dash_space p]).
  change (filter (fun r => String.length r <=? 63)%nat
                 [org_dash_space p; org_dash_space p])
    with (filter (fun r => String.length r <=? 63)%nat
                 ([org_dash_space p] ++ [org_dash_space p])).
  rewrite filter_app. fold n. apply of_list_twice.
Qed.

End RevalidateFacts.

(** X21. Validating a map request again: the validation of the record a
    first validation has left (with the pair of [org] and [space] pushed
    on [routes]) has the same outcome as the first, the same set of names
    or the same rejection, although it pushes the pair once more. *)
Theorem revalidation_same_outcome (args : Args) :
  snd (validateArgsForMapRoutes (fst (validateArgsForMapRoutes args)))
  = snd (validateArgsForMapRoutes args).
Proof.
  rewrite ValidatorFacts.map_frame.
  destruct (appends_pair args) eqn:AP; [|reflexivity].
  unfold appends_pair in AP.
  apply andb_true_iff in AP. destruct AP as [AP R].
  apply andb_true_iff in AP. destruct AP as [B OS].
  assert (L : exists l, js_or (routes args) (JArr []) = JArr l
                        /\ (truthy (routes args) = false
                            \/ routes args = JArr l)).
  { unfold js_or. destruct (truthy (routes args)) eqn:T; simpl in R.
    - destruct (routes args) as [| | | | |l|]; try discriminate R.
      exists l. auto.
    - exists []. auto. }
  destruct L as (l & J & Rt). rewrite J. simpl Array_push.
  pose proof (RevalidateFacts.candidate_names_repeat l (pushed args)) as N.
  unfold validateArgsForMapRoutes at 1 2.
  unfold validateArgsBasic in *. simpl in *.
  destruct (blank_or_not_string (endpoint args)); [discriminate B|].
  destruct (negb (truthy (token args)) || negb (is_object (token args)));
    [discriminate B|].
  destruct (blank_or_not_string (appname args)); [discriminate B|].
  apply andb_true_iff in OS. destruct OS as [To Ts]. rewrite To, Ts. simpl.
  rewrite J. simpl.
  assert (E : truthy (routes args) && negb (Array_isArray (routes args))
              = false).
  { destruct Rt as [-> | ->]; reflexivity. }
  rewrite E. unfold pushed in *. rewrite ?To, ?Ts. simpl.
  destruct (candidate_names (l ++ [JObj [("org", org args);
                                          ("space", space args)]]))
    as [n1|e1];
    destruct (candidate_names ((l ++ [JObj [("org", org args);
                                            ("space", space args)]])
                               ++ [JObj [("org", org args);
                                         ("space", space args)]]))
      as [n2|e2]; simpl; try contradiction; now rewrite N.
Qed.

(** X22. The plain use of [map], with [org] and [space] and no [routes]:
    once the basic checks pass, the validation leaves the pair as the only
    entry of [routes] and resolves with the single name org-space when
    both are strings of characters of 0-9, a-z, A-Z with at most 62
    characters together, and with the empty set otherwise. *)
Theorem map_org_space_only (args : Args) (o sp : string) :
  snd (validateArgsBasic args) = Resolved tt ->
  truthy (routes args) = false ->
  org args = JStr o -> space args = JStr sp ->
  o <> EmptyString -> sp <> EmptyString ->
  validateArgsForMapRoutes args
  = (set_routes args (JArr [JObj [("org", JStr o); ("space", JStr sp)]]),
     Resolved
       (if matches_alnum_plus o && matches_alnum_plus sp
           && (String.length o + String.length sp <=? 62)%nat
        then [(o ++ "-" ++ sp)%string] else [])).
Proof.
  intros B R Eo Es No Ns.
  unfold validateArgsForMapRoutes.
  destruct (validateArgsBasic args) as [a b] eqn:E.
  pose proof (ValidatorFacts.basic_inv _ _ _ E). subst a. simpl in B. subst b.
  rewrite Eo, Es, R. simpl.
  apply String.eqb_neq in No, Ns. rewrite No, Ns. simpl.
  unfold js_or. rewrite R. simpl. rewrite Eo, Es.
  unfold candidate_names, valid_route_entry. simpl.
  destruct (matches_alnum_plus o); simpl; [|reflexivity].
  destruct (matches_alnum_plus sp); simpl; [|reflexivity].
  rewrite !ValidatorMore.length_append. simpl.
  replace (String.length o + S (String.length sp))
    with (S (String.length o + String.length sp)) by lia.
  simpl.
  destruct (String.length o + String.length sp <=? 62)%nat; reflexivity.
Qed.

Lemma map_org_space_only_witness :
  snd (validateArgsBasic (Mock.map_org_space "acme" "dev")) = Resolved tt
  /\ validateArgsForMapRoutes (Mock.map_org_space "acme" "dev")
     = (set_routes (Mock.map_org_space "acme" "dev")
                   (JArr [JObj [("org", JStr "acme"); ("space", JStr "dev")]]),
        Resolved ["acme-dev"]).
Proof.
  assert (B : snd (validateArgsBasic (Mock.map_org_space "acme" "dev"))
              = Resolved tt) by (vm_compute; reflexivity).
  split; [exact B|].
  rewrite (map_org_space_only (Mock.map_org_space "acme" "dev") "acme" "dev"
             B eq_refl eq_refl eq_refl);
    [reflexivity | discriminate | discriminate].
Defined.

(** X23. What [unmap] sends: once validation and the lookup have passed,
    the action sends exactly one request per live route record whose host
    is requested, in the order of the live list: the deletion of the
    route when [deleteAfterUnmap] is the boolean true, the removal of its
    association with the application otherwise. *)
Theorem unmap_requests {W : Type} (C : Client W) (args args' : Args)
    (requested : StrSet.t) (s s1 : St W) (live : list Route) (app : string) :
  validateArgsForUnmapRoutes args = (args', Resolved requested) ->
  getAppRoutes C (str_of (appname args)) s = (s1, Resolved (live, app)) ->
  exists s2 status,
    unmapRoutes C args s = (args', (s2, Resolved status))
    /\ sent s1 s2
         (map (fun r => if strict_eq_true (deleteAfterUnmap args)
                        then RoutesRemove (route_guid r)
                        else DeleteAppRoute app (route_guid r))
              (filter (fun r => StrSet.has requested (host r)) live)).
Proof.
  intros V G.
  rewrite (ActionFacts.unmapRoutes_run C _ _ _ _ _ _ _ V G).
  eexists. eexists. split; [reflexivity|].
  unfold sent, Executor.delete_run. simpl.
  rewrite DifferFacts.routesToDelete_eq.
  apply ExecutorFacts.run_all_trace. intros r s'.
  apply ExecutorFacts.rmRoute_trace.
Qed.

Lemma unmap_requests_witness :
  validateArgsForUnmapRoutes (Mock.unmap_args ["myapp-prod"] (JBool true))
  = (Mock.unmap_args ["myapp-prod"] (JBool true), Resolved ["myapp-prod"])
  /\ getAppRoutes Mock.client "myapp" (Mock.start Mock.world_two_domains)
     = (Scenario.listed Mock.world_two_domains,
        Resolved ([Mock.r_myapp; Mock.r_prod; Mock.r_prod2], "app-1"))
  /\ exists s2 status,
      unmapRoutes Mock.client (Mock.unmap_args ["myapp-prod"] (JBool true))
                  (Mock.start Mock.world_two_domains)
      = (Mock.unmap_args ["myapp-prod"] (JBool true), (s2, Resolved status))
      /\ sent (Scenario.listed Mock.world_two_domains) s2
              [RoutesRemove "g1"; RoutesRemove "g2"].
Proof.
  assert (V : validateArgsForUnmapRoutes
                (Mock.unmap_args ["myapp-prod"] (JBool true))
              = (Mock.unmap_args ["myapp-prod"] (JBool true),
                 Resolved ["myapp-prod"]))
    by (vm_compute; reflexivity).
  assert (G : getAppRoutes Mock.client
                (str_of (appname (Mock.unmap_args ["myapp-prod"] (JBool true))))
                (Mock.start Mock.world_two_domains)
              = (Scenario.listed Mock.world_two_domains,
                 Resolved ([Mock.r_myapp; Mock.r_prod; Mock.r_prod2],
                           "app-1")))
    by (vm_compute; reflexivity).
  split; [exact V|]. split; [exact G|].
  exact (unmap_requests Mock.client _ _ _ _ _ _ _ V G).
Defined.
